(** * Session health monitoring: [scripts/enhanced-monitoring.js]

    A shallow embedding of the monitoring script and the properties of its
    health report, stall detection, recovery loop, alerting and exit status.

    Modelling conventions.
    - A JavaScript string is kept as the bytes of its UTF-8 form; [null]
      and [undefined] are [None].
    - The host (file system, child processes) is a record of functions over
      an abstract world; every [execSync] may change the world, which also
      covers the time that passes between two commands (the one second
      settle delay of the recovery loop).
    - What exists on disk and which directories can be entered does not
      change during a run; registry paths are absolute, so a successful
      [process.chdir path] leaves the process in [path].
    - Effects are collected as a chronological list of events.  Console
      output is recorded by kind with the run-dependent values it shows;
      colours, clock readings and banner lines are left out, and so are
      the [timestamp] and [duration] fields of the report.
    - Loading the registry and writing the report file are taken to
      succeed.
    - [process.exit] is given a code, of which the exit status keeps the
      low eight bits. *)

From Stdlib Require Import Ascii.
From stdpp Require Import base strings list gmap pretty.

(** ** String primitives *)

Module Js.

(** The double quote character, and the line feed. *)
Definition dq : string := String "034"%char "".
Definition nl : string := String "010"%char "".

(** [s.includes(pat)] *)
Fixpoint includes (s pat : string) : bool :=
  String.prefix pat s ||
  match s with
  | "" => false
  | String _ s' => includes s' pat
  end.

(** [s.split(sep)] for a one-character separator. *)
Fixpoint split (sep : ascii) (s : string) : list string :=
  match s with
  | "" => [""]
  | String c s' =>
      if Ascii.eqb c sep then "" :: split sep s'
      else match split sep s' with
           | [] => [String c ""]
           | w :: ws => String c w :: ws
           end
  end.

(** [l.join(sep)] *)
Fixpoint join (sep : string) (l : list string) : string :=
  match l with
  | [] => ""
  | [x] => x
  | x :: rest => x +:+ sep +:+ join sep rest
  end.

(** [l.slice(-n)] *)
Definition slice_last {A} (n : nat) (l : list A) : list A :=
  drop (length l - n) l.

(** *** Code units

    [length], [slice] and [substring] count the code units of UTF-16.  A
    string is kept in its UTF-8 form: a byte below 128, or the lead byte
    of a sequence of two or three bytes, stands for one code unit, the
    lead byte of a sequence of four bytes for a surrogate pair, and a
    continuation byte for none.  A surrogate on its own is the three
    bytes of its generalised encoding. *)

Definition unitsOf (c : ascii) : nat :=
  match c with
  | Ascii _ _ _ _ b4 b5 b6 b7 =>
      if negb b7 then 1
      else if negb b6 then 0
      else if b5 && b4 then 2
      else 1
  end.

(** [s.length] *)
Fixpoint units (s : string) : nat :=
  match s with
  | "" => 0
  | String c s' => unitsOf c + units s'
  end.

(** The continuation byte that carries the low six bits of [x]. *)
Definition continuation (x : N) : ascii :=
  Ascii (N.testbit x 0) (N.testbit x 1) (N.testbit x 2)
        (N.testbit x 3) (N.testbit x 4) (N.testbit x 5) false true.

Definition byteAt (i : nat) (s : string) : N :=
  match String.get i s with
  | Some c => N_of_ascii c
  | None => 0%N
  end.

(** The first half of the surrogate pair of the character whose lead
    byte is [c] and whose continuation bytes open [rest]. *)
Definition highSurrogate (c : ascii) (rest : string) : string :=
  let codePoint :=
    (N.shiftl (N.land (N_of_ascii c) 7) 18 +
     N.shiftl (N.land (byteAt 0 rest) 63) 12 +
     N.shiftl (N.land (byteAt 1 rest) 63) 6 +
     N.land (byteAt 2 rest) 63)%N in
  let high := (55296 + N.shiftr (codePoint - 65536) 10)%N in
  String "237"%char
    (String (continuation (N.shiftr high 6))
       (String (continuation high) "")).

(** [s.slice(0, n)] and [s.substring(0, n)]; a cut between the halves of
    a surrogate pair keeps the first half. *)
Fixpoint substring0 (n : nat) (s : string) : string :=
  match s with
  | "" => ""
  | String c s' =>
      match unitsOf c with
      | 0 => String c (substring0 n s')
      | 1 =>
          match n with
          | 0 => ""
          | S n' => String c (substring0 n' s')
          end
      | _ =>
          match n with
          | 0 => ""
          | 1 => highSurrogate c s'
          | S (S n') => String c (substring0 n' s')
          end
      end
  end.

(** *** White space

    [trim] removes the white space and line terminator characters of
    ECMAScript: the six of ASCII, U+00A0, U+1680, U+2000 to U+200A,
    U+2028, U+2029, U+202F, U+205F, U+3000 and U+FEFF. *)

Definition isSpace2 (c1 c2 : ascii) : bool :=
  (N_of_ascii c1 =? 194)%N && (N_of_ascii c2 =? 160)%N.

Definition isSpace3 (c1 c2 c3 : ascii) : bool :=
  let b1 := N_of_ascii c1 in
  let b2 := N_of_ascii c2 in
  let b3 := N_of_ascii c3 in
  ((b1 =? 225) && (b2 =? 154) && (b3 =? 128) ||
   (b1 =? 226) && (b2 =? 128) &&
     ((128 <=? b3) && (b3 <=? 138) || (b3 =? 168) || (b3 =? 169) || (b3 =? 175)) ||
   (b1 =? 226) && (b2 =? 129) && (b3 =? 159) ||
   (b1 =? 227) && (b2 =? 128) && (b3 =? 128) ||
   (b1 =? 239) && (b2 =? 187) && (b3 =? 191))%N.

(** The rest of [s] after one white space character, if it opens with one. *)
Definition stripSpace (s : string) : option string :=
  match s with
  | "" => None
  | String c1 r1 =>
      if Ascii.is_space c1 then Some r1
      else match r1 with
           | "" => None
           | String c2 r2 =>
               if isSpace2 c1 c2 then Some r2
               else match r2 with
                    | "" => None
                    | String c3 r3 => if isSpace3 c1 c2 c3 then Some r3 else None
                    end
           end
  end.

Fixpoint trimStart (s : string) : string :=
  match s with
  | "" => ""
  | String c1 r1 =>
      if Ascii.is_space c1 then trimStart r1
      else match r1 with
           | "" => s
           | String c2 r2 =>
               if isSpace2 c1 c2 then trimStart r2
               else match r2 with
                    | "" => s
                    | String c3 r3 => if isSpace3 c1 c2 c3 then trimStart r3 else s
                    end
           end
  end.

(** Nothing but white space. *)
Definition isBlank (s : string) : bool :=
  match trimStart s with
  | "" => true
  | _ => false
  end.

Fixpoint trimEnd (s : string) : string :=
  match s with
  | "" => ""
  | String c s' => if isBlank s then "" else String c (trimEnd s')
  end.

(** [s.trim()] *)
Definition trim (s : string) : string := trimEnd (trimStart s).

(** [obj[key] = v] on an object that serves as a map.  The key
    [__proto__] names the prototype of the object: assigning an object to
    it adds no property, and the prototype is seen neither by
    [Object.keys] nor by [JSON.stringify]. *)
Definition assign {A} (key : string) (v : A) (obj : gmap string A) : gmap string A :=
  if String.eqb key "__proto__" then obj else <[key := v]> obj.

(** Truthiness of a value that is a string or [null]. *)
Definition truthy (v : option string) : bool :=
  match v with
  | Some "" => false
  | Some _ => true
  | None => false
  end.

(** [v && v.includes(pat)] *)
Definition shows (v : option string) (pat : string) : bool :=
  match v with
  | Some s => truthy v && includes s pat
  | None => false
  end.

End Js.

(** ** Data model *)

(** Result of [runMCPMonitoring]: [{success: true, data}] or
    [{success: false, error}]. *)
Inductive McpResult :=
| McpOk (data : string)
| McpErr (error : string).

Definition success (r : McpResult) : bool :=
  match r with McpOk _ => true | McpErr _ => false end.

(** One value of [progressData]: the object literal of lines 84-90, or
    [{error}] from the catch block. *)
Inductive GitEntry :=
| GitInfo (path : string) (latestCommit : option (list string))
          (uncommittedChanges : nat) (currentBranch : string)
          (lastActivity : option string)
| GitError (error : string).

Definition entry_error (e : GitEntry) : option string :=
  match e with GitError msg => Some msg | GitInfo _ _ _ _ _ => None end.

Record StuckSession := {
  session : string;
  pattern : string;
  content : string
}.

Inductive Health := excellent | needs_attention.

Record Summary := {
  projectsChecked : nat;
  stuckPrompts : nat;
  mcpStatus : string;
  overallHealth : Health
}.

Record Report := {
  mcp : McpResult;
  gitProgress : gmap string GitEntry;
  stuckSessions : list StuckSession;
  summary : Summary
}.

(** ** Effects *)

(** Console lines written through [log], by kind. *)
Inductive LogMsg :=
| LogMcpRunning (mode : string)
| LogMcpScriptNotFound
| LogMcpCompleted
| LogMcpNoData
| LogGitChecking
| LogGitCommit (name message time : string)
| LogGitNoHistory (name : string)
| LogGitError (name : string)
| LogGitPathNotFound (name : string)
| LogDetecting
| LogFoundStuck (n : nat)
| LogStuckSession (s : string)
| LogStuckPattern (p : string)
| LogStuckContext (c : string)
| LogNoStuck
| LogNoTmux
| LogAutoFix
| LogFixing (s : string)
| LogFixed (s fix_ : string)
| LogSendingAlert
| LogAlertSent
| LogEmailScriptMissing
| LogGenerating
| LogSummary (s : Summary)
| LogReportSaved.

Inductive Event :=
| EvLog (m : LogMsg)
| EvChdir (path : string)
| EvExec (dir command : string) (out : option string)
| EvSaveReport (r : Report).

(** The host the script runs on.  [chdirError path] is the message of
    the error [process.chdir path] throws, if it throws; [execSync dir
    command w] is the output of the child process started in [dir], or
    [None] when [child_process.execSync] throws (non-zero exit, timeout,
    missing program), with the world it leaves behind.  [projectPaths]
    is [Object.entries] of the registry and [dirname] the directory of
    the script. *)
Record Host (W : Type) := {
  existsSync : string → bool;
  chdirError : string → option string;
  execSync : string → string → W → option string * W;
  projectPaths : list (string * string);
  dirname : string
}.
Arguments existsSync {W}.
Arguments chdirError {W}.
Arguments execSync {W}.
Arguments projectPaths {W}.
Arguments dirname {W}.

(** Process state: the working directory and the world outside. *)
Record Proc (W : Type) := { cwd : string; world : W }.
Arguments Build_Proc {W}.
Arguments cwd {W}.
Arguments world {W}.

Section Effects.
Context {W : Type}.

(** A computation returns its value, the state it ends in, and the
    events it caused, oldest first. *)
Definition M (A : Type) : Type := Proc W → A * Proc W * list Event.

Definition value {A} (r : A * Proc W * list Event) : A := r.1.1.
Definition final {A} (r : A * Proc W * list Event) : Proc W := r.1.2.
Definition events {A} (r : A * Proc W * list Event) : list Event := r.2.

Definition ret {A} (a : A) : M A := λ p, (a, p, []).

Definition bind {A B} (m : M A) (k : A → M B) : M B := λ p,
  let r1 := m p in
  let r2 := k (value r1) (final r1) in
  (value r2, final r2, events r1 ++ events r2).

Definition log (m : LogMsg) : M unit := λ p, (tt, p, [EvLog m]).

End Effects.
Arguments M W A : clear implicits.

Declare Scope prog_scope.
Delimit Scope prog_scope with prog.
Notation "x <- m ;; k" := (bind m (λ x, k))
  (at level 20, m at level 99, k at level 200, only parsing) : prog_scope.
Notation "m ;; k" := (bind m (λ _, k))
  (at level 100, k at level 200, only parsing, right associativity) : prog_scope.
Open Scope prog_scope.

(** ** The script *)

Section Monitoring.
Context {W : Type} (host : Host W).

(** [exec]: never throws; a failing command yields [null]. *)
Definition exec (command : string) : M W (option string) := λ p,
  let r := execSync host (cwd p) command (world p) in
  let out := Js.trim <$> r.1 in
  (out, Build_Proc (cwd p) r.2, [EvExec (cwd p) command out]).

(** A [process.chdir] that did not throw. *)
Definition process_chdir (path : string) : M W unit := λ p,
  (tt, Build_Proc path (world p), [EvChdir path]).

Definition mcpScript : string :=
  "/Users/shakeelbhamani/projects/personal/Tmux-Orchestrator/claude-monitoring-mcp-client.py".

(** The catch block of lines 62-65 cannot be reached: [exec] does not
    throw. *)
Definition runMCPMonitoring (mode : string) : M W McpResult :=
  log (LogMcpRunning mode) ;;
  if negb (existsSync host mcpScript) then
    log LogMcpScriptNotFound ;;
    ret (McpErr "MCP script not found")
  else
    let command :=
      if String.eqb mode "quick"
      then "python3 " +:+ mcpScript +:+ " --quick"
      else "python3 " +:+ mcpScript in
    result <- exec command ;;
    if Js.truthy result then
      log LogMcpCompleted ;;
      ret (McpOk (default "" result))
    else
      log LogMcpNoData ;;
      ret (McpErr "No data returned").

Definition gitLogCmd : string :=
  "git log -1 --format=" +:+ Js.dq +:+ "%H|%an|%ar|%s" +:+ Js.dq.
Definition gitStatusCmd : string := "git status --porcelain".
Definition gitBranchCmd : string := "git branch --show-current".

(** The object literal of lines 84-90. *)
Definition gitInfo (projectPath : string)
    (latestCommit uncommittedChanges branchInfo : option string) : GitEntry :=
  GitInfo projectPath
    (if Js.truthy latestCommit
     then Some (Js.split "|"%char (default "" latestCommit)) else None)
    (if Js.truthy uncommittedChanges
     then length (Js.split "010"%char (default "" uncommittedChanges)) else 0)
    (if Js.truthy branchInfo then default "" branchInfo else "unknown")
    (if Js.truthy latestCommit
     then Js.split "|"%char (default "" latestCommit) !! 2 else Some "unknown").

(** Message of the [TypeError] raised by [message.substring] when the
    fourth field of the commit line is [undefined]. *)
Definition substringTypeError : string :=
  "Cannot read properties of undefined (reading 'substring')".

(** Body of the loop of lines 74-106 for one registry entry. *)
Definition inspectProject (name projectPath : string)
    (progressData : gmap string GitEntry) : M W (gmap string GitEntry) :=
  if existsSync host projectPath then
    match chdirError host projectPath with
    | Some msg =>
        log (LogGitError name) ;;
        ret (Js.assign name (GitError msg) progressData)
    | None =>
        process_chdir projectPath ;;
        latestCommit <- exec gitLogCmd ;;
        uncommittedChanges <- exec gitStatusCmd ;;
        branchInfo <- exec gitBranchCmd ;;
        let progressData :=
          Js.assign name
            (gitInfo projectPath latestCommit uncommittedChanges branchInfo)
            progressData in
        if Js.truthy latestCommit then
          let fields := Js.split "|"%char (default "" latestCommit) in
          match fields !! 3 with
          | Some message =>
              log (LogGitCommit name (Js.substring0 50 message)
                     (default "" (fields !! 2))) ;;
              ret progressData
          | None =>
              log (LogGitError name) ;;
              ret (Js.assign name (GitError substringTypeError) progressData)
          end
        else
          log (LogGitNoHistory name) ;;
          ret progressData
    end
  else
    log (LogGitPathNotFound name) ;;
    ret progressData.

Fixpoint inspectAll (entries : list (string * string))
    (progressData : gmap string GitEntry) : M W (gmap string GitEntry) :=
  match entries with
  | [] => ret progressData
  | (name, projectPath) :: rest =>
      progressData <- inspectProject name projectPath progressData ;;
      inspectAll rest progressData
  end.

Definition checkGitProgress : M W (gmap string GitEntry) :=
  log LogGitChecking ;;
  inspectAll (projectPaths host) ∅.

Definition stuckPatterns : list string := [
  "Do you want to proceed?";
  "Press any key to continue";
  "Waiting for user input";
  "Type " +:+ Js.dq +:+ "y" +:+ Js.dq +:+ " to confirm";
  "Continue? (y/n)";
  "Approval required";
  "Enter to continue";
  "Would you like to";
  "Please confirm";
  "Proceed with"
].

Definition listSessionsCmd : string := "tmux list-sessions 2>/dev/null".
Definition capturePaneCmd (sessionName : string) : string :=
  "tmux capture-pane -t " +:+ sessionName +:+ " -p".

(** The entry pushed at lines 144-148. *)
Definition stuckEntry (sessionName pattern : string)
    (screenContent : option string) : StuckSession :=
  {| session := sessionName;
     pattern := pattern;
     content := Js.join Js.nl
                  (Js.slice_last 5 (Js.split "010"%char (default "" screenContent))) |}.

(** The loop over the patterns, lines 142-151: push for the first
    pattern the screen shows, then [break]. *)
Fixpoint scanPatterns (sessionName : string) (screenContent : option string)
    (patterns : list string) (stuckSessions : list StuckSession)
    : list StuckSession :=
  match patterns with
  | [] => stuckSessions
  | pattern :: rest =>
      if Js.shows screenContent pattern then
        stuckSessions ++ [stuckEntry sessionName pattern screenContent]
      else scanPatterns sessionName screenContent rest stuckSessions
  end.

(** The loop over the sessions, lines 135-155.  Nothing in its [try]
    block throws. *)
Fixpoint scanSessions (sessions : list string)
    (stuckSessions : list StuckSession) : M W (list StuckSession) :=
  match sessions with
  | [] => ret stuckSessions
  | session :: rest =>
      let sessionName := default "" (head (Js.split ":"%char session)) in
      screenContent <- exec (capturePaneCmd sessionName) ;;
      scanSessions rest
        (scanPatterns sessionName screenContent stuckPatterns stuckSessions)
  end.

Fixpoint logStuck (stuckSessions : list StuckSession) : M W unit :=
  match stuckSessions with
  | [] => ret tt
  | stuck :: rest =>
      log (LogStuckSession (session stuck)) ;;
      log (LogStuckPattern (pattern stuck)) ;;
      log (LogStuckContext (Js.substring0 100 (content stuck))) ;;
      logStuck rest
  end.

Definition detectStuckPrompts : M W (list StuckSession) :=
  log LogDetecting ;;
  tmuxSessions <- exec listSessionsCmd ;;
  if Js.truthy tmuxSessions then
    stuckSessions <- scanSessions (Js.split "010"%char (default "" tmuxSessions)) [] ;;
    if 0 <? length stuckSessions then
      log (LogFoundStuck (length stuckSessions)) ;;
      logStuck stuckSessions ;;
      ret stuckSessions
    else
      log LogNoStuck ;;
      ret []
  else
    log LogNoTmux ;;
    ret [].

Definition fixes : list string := ["y"; "yes"; ""; "q"; "exit"].

Definition sendKeysCmd (sessionName key : string) : string :=
  "tmux send-keys -t " +:+ sessionName +:+ " " +:+ Js.dq +:+ key +:+ Js.dq +:+ " Enter".

(** [!newContent || !newContent.includes(pattern)] *)
Definition noLongerShows (newContent : option string) (pattern : string) : bool :=
  negb (Js.truthy newContent) ||
  negb (Js.includes (default "" newContent) pattern).

(** The loop over the fixes, lines 191-201. *)
Fixpoint tryFixes (stuck : StuckSession) (keys : list string) : M W unit :=
  match keys with
  | [] => ret tt
  | key :: rest =>
      exec (sendKeysCmd (session stuck) key) ;;
      newContent <- exec (capturePaneCmd (session stuck)) ;;
      if noLongerShows newContent (pattern stuck) then
        log (LogFixed (session stuck) key)
      else tryFixes stuck rest
  end.

(** The loop over the stuck sessions, lines 184-205; its catch block
    cannot be reached. *)
Fixpoint fixSessions (stuckSessions : list StuckSession) : M W unit :=
  match stuckSessions with
  | [] => ret tt
  | stuck :: rest =>
      log (LogFixing (session stuck)) ;;
      tryFixes stuck fixes ;;
      fixSessions rest
  end.

Definition autoFixStuckPrompts (stuckSessions : list StuckSession) : M W unit :=
  if length stuckSessions =? 0 then ret tt
  else
    log LogAutoFix ;;
    fixSessions stuckSessions.

Definition alertMessage (stuckSessions : list StuckSession) : string :=
  Js.join Js.nl [
    "";
    "# 🚨 AI Team Token Waste Alert";
    "";
    "**Detected " +:+ pretty (length stuckSessions) +:+ " stuck AI session(s)**";
    "";
    "## Stuck Sessions:";
    Js.join Js.nl
      ((λ s, "- **" +:+ session s +:+ "**: " +:+ pattern s) <$> stuckSessions);
    "";
    "## Actions Taken:";
    "- Automatic fix attempts executed";
    "- Sessions monitored for response";
    "- Manual intervention may be required";
    "";
    "## Next Steps:";
    "1. Check tmux sessions manually if auto-fix failed";
    "2. Review AI team prompts for approval requirements";
    "3. Consider updating approval patterns";
    "";
    "*Alert sent from Enhanced MCP Monitoring System*";
    ""
  ].

Definition emailScript : string := dirname host +:+ "/quick-email.js".

Definition emailCmd (stuckSessions : list StuckSession) : string :=
  "node " +:+ Js.dq +:+ emailScript +:+ Js.dq +:+ " " +:+
  Js.dq +:+ alertMessage stuckSessions +:+ Js.dq.

Definition sendTokenWasteAlert (stuckSessions : list StuckSession) : M W unit :=
  if length stuckSessions =? 0 then ret tt
  else
    log LogSendingAlert ;;
    if existsSync host emailScript then
      exec (emailCmd stuckSessions) ;;
      log LogAlertSent
    else
      log LogEmailScriptMissing.

Definition saveReport (report : Report) : M W unit :=
  λ p, (tt, p, [EvSaveReport report]).

Definition generateMonitoringReport : M W Report :=
  log LogGenerating ;;
  mcpResult <- runMCPMonitoring "detailed" ;;
  gitProgress <- checkGitProgress ;;
  stuckSessions <- detectStuckPrompts ;;
  (if 0 <? length stuckSessions then
     autoFixStuckPrompts stuckSessions ;;
     sendTokenWasteAlert stuckSessions
   else ret tt) ;;
  let report := {|
    mcp := mcpResult;
    gitProgress := gitProgress;
    stuckSessions := stuckSessions;
    summary := {|
      projectsChecked := size gitProgress;
      stuckPrompts := length stuckSessions;
      mcpStatus := if success mcpResult then "operational" else "error";
      overallHealth :=
        if (length stuckSessions =? 0) && success mcpResult
        then excellent else needs_attention
    |}
  |} in
  saveReport report ;;
  log (LogSummary (summary report)) ;;
  log LogReportSaved ;;
  ret report.

(** What [autoFixStuckPrompts] does before its first [await]: in the
    [stuck] mode its promise is dropped and [process.exit] follows at
    once, so only this much of it runs. *)
Definition autoFixUntilFirstAwait (stuckSessions : list StuckSession) : M W unit :=
  match stuckSessions, fixes with
  | stuck :: _, key :: _ =>
      log LogAutoFix ;;
      log (LogFixing (session stuck)) ;;
      exec (sendKeysCmd (session stuck) key) ;;
      ret tt
  | _, _ => ret tt
  end.

(** [args[0] || 'full'] *)
Definition modeOf (args : list string) : string :=
  match args with
  | arg :: _ => if String.eqb arg "" then "full" else arg
  | [] => "full"
  end.

(** [main]: the value is the argument of [process.exit]. *)
Definition main (args : list string) : M W nat :=
  let mode := modeOf args in
  if String.eqb mode "quick" then
    result <- runMCPMonitoring "quick" ;;
    ret (if success result then 0 else 1)
  else if String.eqb mode "git" then
    checkGitProgress ;;
    ret 0
  else if String.eqb mode "stuck" then
    stuckSessions <- detectStuckPrompts ;;
    (if 0 <? length stuckSessions
     then autoFixUntilFirstAwait stuckSessions else ret tt) ;;
    ret (length stuckSessions)
  else
    report <- generateMonitoringReport ;;
    ret (match overallHealth (summary report) with
         | excellent => 0
         | needs_attention => 1
         end).

End Monitoring.

(** The exit status the operating system reports for [process.exit(code)]:
    the low eight bits of the code. *)
Definition exitStatus (code : nat) : nat := code mod 256.

(** ** A scripted host for concrete runs *)

(** The world is a table: for a directory and a command, the outputs of
    the successive calls ([None]: the command fails); the last output
    repeats, and a command that is not listed fails. *)
Definition Script : Type := list (string * string * list (option string)).

Fixpoint respond (dir command : string) (w : Script) : option string * Script :=
  match w with
  | [] => (None, [])
  | (d, c, outs) :: rest =>
      if String.eqb d dir && String.eqb c command then
        match outs with
        | [] => (None, w)
        | [o] => (o, w)
        | o :: outs' => (o, (d, c, outs') :: rest)
        end
      else
        let r := respond dir command rest in
        (r.1, (d, c, outs) :: r.2)
  end.

(** [files] exist; entering a path listed in [blocked] throws the given
    message. *)
Definition scripted (files : list string) (blocked : list (string * string))
    (registry : list (string * string)) : Host Script :=
  {| existsSync path := bool_decide (path ∈ files);
     chdirError path := (list_to_map blocked : gmap string string) !! path;
     execSync := respond;
     projectPaths := registry;
     dirname := "/opt/prefs/scripts" |}.

Definition start (w : Script) : Proc Script := Build_Proc "/" w.

(** ** Reading a trace *)

Definition isSendKeys (e : Event) : bool :=
  match e with
  | EvExec _ command _ => String.prefix "tmux send-keys " command
  | _ => false
  end.

Definition isNotify (e : Event) : bool :=
  match e with
  | EvExec _ command _ => String.prefix "node " command
  | _ => false
  end.

(** Recovery attempts: the injections. *)
Definition attempts (t : list Event) : nat := length (List.filter isSendKeys t).

(** Invocations of the notifier. *)
Definition notifications (t : list Event) : nat := length (List.filter isNotify t).

(** The trace reports the session as fixed. *)
Definition reportedFixed (t : list Event) (sessionName : string) : bool :=
  existsb (λ e, match e with
                | EvLog (LogFixed s _) => String.eqb s sessionName
                | _ => false
                end) t.

(** Stuck sessions the trace does not report as fixed. *)
Definition unresolved (t : list Event) (stuckSessions : list StuckSession)
    : list StuckSession :=
  List.filter (λ s, negb (reportedFixed t (session s))) stuckSessions.

(** The commit line has its four fields whenever there is one. *)
Definition fourFields (latestCommit : option string) : Prop :=
  Js.truthy latestCommit = true →
  is_Some (Js.split "|"%char (default "" latestCommit) !! 3).

(** A path the verification phase enters. *)
Definition entered {W} (host : Host W) (path : string) : bool :=
  existsSync host path && bool_decide (chdirError host path = None).

(** ** Concrete runs *)

Module Scenario.

Definition mcpOk : string * string * list (option string) :=
  ("/", "python3 " +:+ mcpScript, [Some "all agents healthy"]).

Definition askScreen : string := "Apply the migration? Do you want to proceed?".

(** One tracked project whose path is a regular file: it exists, but
    cannot be entered.  No tmux server, the status oracle answers. *)
Definition fileHost : Host Script :=
  scripted [mcpScript; "/srv/web"]
    [("/srv/web", "ENOTDIR: not a directory, chdir '/srv/web'")]
    [("web", "/srv/web")].
Definition fileWorld : Script := [mcpOk].

(** One session, stalled on an approval prompt, that answers the second
    fallback input. *)
Definition devHost : Host Script :=
  scripted [mcpScript; "/opt/prefs/scripts/quick-email.js"] [] [].
Definition devWorld : Script := [
  mcpOk;
  ("/", listSessionsCmd, [Some "dev: 1 windows (created Mon Nov  2 09:12:41 2026)"]);
  ("/", capturePaneCmd "dev", [Some askScreen; Some askScreen; Some "Running tests"]);
  ("/", sendKeysCmd "dev" "y", [Some ""]);
  ("/", sendKeysCmd "dev" "yes", [Some ""]);
  ("/", emailCmd devHost [stuckEntry "dev" "Do you want to proceed?" (Some askScreen)],
   [Some "sent"])
].
Definition devStuck : StuckSession :=
  stuckEntry "dev" "Do you want to proceed?" (Some askScreen).

(** Two tracked projects: a clean repository on [main], and a path that
    is not there. *)
Definition twoHost : Host Script :=
  scripted [mcpScript; "/srv/good"] []
    [("good", "/srv/good"); ("gone", "/srv/gone")].
Definition twoWorld : Script := [
  mcpOk;
  ("/srv/good", gitLogCmd, [Some "9fceb02|Ann|2 days ago|Initial import"]);
  ("/srv/good", gitStatusCmd, [Some ""]);
  ("/srv/good", gitBranchCmd, [Some "main"])
].

(** One session whose pane cannot be captured, and the same session
    busy compiling. *)
Definition paneHost : Host Script := scripted [mcpScript] [] [].
Definition paneGone : Script := [
  mcpOk;
  ("/", listSessionsCmd, [Some "dev: 1 windows"]);
  ("/", capturePaneCmd "dev", [None])
].
Definition paneBusy : Script := [
  mcpOk;
  ("/", listSessionsCmd, [Some "dev: 1 windows"]);
  ("/", capturePaneCmd "dev", [Some "Compiling module 3 of 7"])
].

(** The same session when recovery starts: it still asks after the first
    input and runs on after the second. *)
Definition fixWorld : Script := [
  ("/", sendKeysCmd "dev" "y", [Some ""]);
  ("/", capturePaneCmd "dev", [Some askScreen; Some "Running tests"]);
  ("/", sendKeysCmd "dev" "yes", [Some ""])
].

(** A stalled session that vanishes before the first injection: both
    the injection and the re-capture fail. *)
Definition vanishWorld : Script := [].

(** A repository in which [git status] fails. *)
Definition apiHost : Host Script :=
  scripted [mcpScript; "/srv/api"] [] [("api", "/srv/api")].
Definition apiWorld : Script := [
  mcpOk;
  ("/srv/api", gitLogCmd, [Some "4be1a77|Bo|3 hours ago|Add retry"]);
  ("/srv/api", gitStatusCmd, [None]);
  ("/srv/api", gitBranchCmd, [Some "main"])
].

(** Two stalled sessions. *)
Definition pairWorld : Script := [
  ("/", listSessionsCmd, [Some ("dev: 1 windows" +:+ Js.nl +:+ "ops: 2 windows")]);
  ("/", capturePaneCmd "dev", [Some askScreen]);
  ("/", capturePaneCmd "ops", [Some "Deploy to production. Please confirm"])
].

(** 256 stalled sessions, [s0] to [s255]. *)
Definition crowdNames : list string := (λ i : nat, "s" +:+ pretty i) <$> seq 0 256.
Definition crowdWorld : Script :=
  ("/", listSessionsCmd,
   [Some (Js.join Js.nl ((λ n, n +:+ ": 1 windows") <$> crowdNames))]) ::
  ((λ n, ("/", capturePaneCmd n, [Some askScreen])) <$> crowdNames).

(** A registry in which the status oracle is not installed. *)
Definition bareHost : Host Script := scripted [] [] [("web", "/srv/web")].

(** Two existing paths, the second a regular file. *)
Definition abHost : Host Script :=
  scripted ["/srv/a"; "/srv/b"]
    [("/srv/b", "ENOTDIR: not a directory, chdir '/srv/b'")]
    [("a", "/srv/a"); ("b", "/srv/b")].

End Scenario.

(** ** More ways to read a trace *)

(** The commands run, each with the directory it ran in. *)
Definition commandsOf (t : list Event) : list (string * string) :=
  omap (λ e, match e with
             | EvExec dir command _ => Some (dir, command)
             | _ => None
             end) t.

(** The reports written to disk. *)
Definition savedReports (t : list Event) : list Report :=
  omap (λ e, match e with EvSaveReport r => Some r | _ => None end) t.

(** The three inspections of one project, run in its directory. *)
Definition gitCommandsIn (path : string) : list (string * string) :=
  [(path, gitLogCmd); (path, gitStatusCmd); (path, gitBranchCmd)].

(** One recovery attempt on a session: the injection and the
    re-capture. *)
Definition attemptCommands (dir sessionName key : string) : list (string * string) :=
  [(dir, sendKeysCmd sessionName key); (dir, capturePaneCmd sessionName)].

(** How often a character occurs. *)
Fixpoint countChar (c : ascii) (s : string) : nat :=
  match s with
  | "" => 0
  | String d s' => (if Ascii.eqb d c then 1 else 0) + countChar c s'
  end.

(** The session name a line of [tmux list-sessions] stands for. *)
Definition sessionNameOf (line : string) : string :=
  default "" (head (Js.split ":"%char line)).

(** * The mail script: [scripts/quick-email.js]

    The subject line and the exit status of the script that
    [sendTokenWasteAlert] starts.  The HTML body, which goes through the
    [marked] renderer, and the time stamp of the plain text are left
    out; the mail transport is a function of the host. *)

Module Email.

(** [content.split('\n')[0].slice(0, 50)] *)
Definition firstLine (content : string) : string :=
  Js.substring0 50 (default "" (head (Js.split "010"%char content))).

(** Line 26. *)
Definition subject (content : string) : string :=
  "Claude Code: " +:+ firstLine content +:+
  (if 50 <=? Js.units (firstLine content) then "..." else "").

Definition missingCredentials : string :=
  "Missing Gmail credentials. Please set GMAIL_USER and GMAIL_APP_PASSWORD in .env file".

(** [quickEmail]: [inl] the message id the transport returned, [inr] the
    message of the error thrown.  [sendMail] gets the sender and the
    subject. *)
Definition quickEmail (GMAIL_USER GMAIL_APP_PASSWORD : option string)
    (sendMail : string → string → string + string) (content : string)
    : string + string :=
  if negb (Js.truthy GMAIL_USER) || negb (Js.truthy GMAIL_APP_PASSWORD) then
    inr missingCredentials
  else
    sendMail ("Claude Code <" +:+ default "" GMAIL_USER +:+ ">") (subject content).

(** Lines 229-250: the argument of [process.exit]. *)
Definition main (GMAIL_USER GMAIL_APP_PASSWORD : option string)
    (sendMail : string → string → string + string) (args : list string) : nat :=
  if length args =? 0 then 1
  else
    match quickEmail GMAIL_USER GMAIL_APP_PASSWORD sendMail (Js.join " " args) with
    | inl _ => 0
    | inr _ => 1
    end.

End Email.

(** * The command layer of the dashboard: [src/lib/commands.ts]

    [CommandExecutor.execute] and [executeSequence], the two guards
    [validateCommand] and [sanitizeCommandArgs], and [checkGitHealth].
    The child process and the clock belong to the host. *)

Module Commands.

Record CommandExecution := {
  command : string;
  args : option (list string);
  workingDirectory : option string;
  timeout : option N;
  environment : option (gmap string string)
}.

Record CommandResult := {
  success : bool;
  stdout : option string;
  stderr : option string;
  exitCode : option Z;
  duration : Z;
  error : option string
}.

(** The options [execute] passes to [exec]. *)
Record ExecOptions := {
  opt_timeout : N;
  opt_cwd : string;
  opt_env : gmap string string
}.

(** How the promise of [exec] settles: resolved with both streams, or
    rejected with an error that may carry the streams and a numeric
    [code]. *)
Inductive ExecOutcome :=
| Resolved (out err : string)
| Rejected (out err : option string) (code : option Z) (message : string).

Record ExecHost (W : Type) := {
  execAsync : string → ExecOptions → W → ExecOutcome * W;
  now : W → Z;
  processCwd : string;
  processEnv : gmap string string
}.
Arguments execAsync {W}.
Arguments now {W}.
Arguments processCwd {W}.
Arguments processEnv {W}.

(** [validateCommand] *)
Definition dangerousCommands : list string := ["rm -rf"; "sudo rm"; "format"; "fdisk"].

Definition fullCommand (command : string) (args : option (list string)) : string :=
  match args with
  | Some args => command +:+ " " +:+ Js.join " " args
  | None => command
  end.

Definition validateCommand (command : string) (args : option (list string)) : bool :=
  negb (existsb (λ dangerous, Js.includes (fullCommand command args) dangerous)
          dangerousCommands).

(** The characters of the class [[;&|`$(){}]]. *)
Definition isDangerousChar (c : ascii) : bool :=
  match c with
  | ";" | "&" | "|" | "`" | "$" | "(" | ")" | "{" | "}" => true
  | _ => false
  end%char.

(** [arg.replace(/[;&|`$(){}]/g, '')] *)
Fixpoint stripDangerous (arg : string) : string :=
  match arg with
  | "" => ""
  | String c rest =>
      if isDangerousChar c then stripDangerous rest
      else String c (stripDangerous rest)
  end.

Definition sanitizeCommandArgs (args : list string) : list string :=
  stripDangerous <$> args.

(** The default timeout of an executor built by [new CommandExecutor(defaultTimeout)]. *)
Definition executorTimeout (defaultTimeout : option N) : N :=
  match defaultTimeout with
  | Some 0%N | None => 30000%N
  | Some t => t
  end.

Section Executor.
Context {W : Type} (host : ExecHost W) (this_timeout : N).

Definition execOptions (execution : CommandExecution) : ExecOptions :=
  {| opt_timeout :=
       match timeout execution with
       | Some 0%N | None => this_timeout
       | Some t => t
       end;
     opt_cwd :=
       if Js.truthy (workingDirectory execution)
       then default "" (workingDirectory execution) else processCwd host;
     opt_env := default ∅ (environment execution) ∪ processEnv host |}.

(** The command line [execute] starts for an execution, with its
    options. *)
Definition callOf (execution : CommandExecution) : string * ExecOptions :=
  (fullCommand (command execution) (args execution), execOptions execution).

(** [error.code || 1] *)
Definition codeOr1 (code : option Z) : Z :=
  match code with
  | Some 0%Z | None => 1%Z
  | Some c => c
  end.

(** [execute]: the result, the world after, and the command line
    started with its options. *)
Definition execute (execution : CommandExecution) (w : W)
    : CommandResult * W * list (string * ExecOptions) :=
  let startTime := now host w in
  let options := execOptions execution in
  let commandString := fullCommand (command execution) (args execution) in
  let r := execAsync host commandString options w in
  let result :=
    match r.1 with
    | Resolved out err =>
        {| success := true;
           stdout := Some (Js.trim out);
           stderr := Some (Js.trim err);
           exitCode := Some 0%Z;
           duration := (now host r.2 - startTime)%Z;
           error := None |}
    | Rejected out err code message =>
        {| success := false;
           stdout := Some (default "" (Js.trim <$> out));
           stderr := Some (default "" (Js.trim <$> err));
           exitCode := Some (codeOr1 code);
           duration := (now host r.2 - startTime)%Z;
           error := Some message |}
    end in
  (result, r.2, [(commandString, options)]).

(** [execution.environment?.CONTINUE_ON_ERROR] *)
Definition continueOnError (execution : CommandExecution) : bool :=
  Js.truthy (environment execution ≫= λ env, env !! "CONTINUE_ON_ERROR").

(** The loop of [executeSequence], lines 416-424, with the results
    pushed so far. *)
Fixpoint executeSequenceFrom (executions : list CommandExecution)
    (results : list CommandResult) (w : W)
    : list CommandResult * W * list (string * ExecOptions) :=
  match executions with
  | [] => (results, w, [])
  | execution :: rest =>
      let r := execute execution w in
      let results := results ++ [r.1.1] in
      if negb (success r.1.1) && negb (continueOnError execution) then
        (results, r.1.2, r.2)
      else
        let r' := executeSequenceFrom rest results r.1.2 in
        (r'.1.1, r'.1.2, r.2 ++ r'.2)
  end.

Definition executeSequence (executions : list CommandExecution) (w : W)
    : list CommandResult * W * list (string * ExecOptions) :=
  executeSequenceFrom executions [] w.

(** [projectPath || process.cwd()] *)
Definition pathOrCwd (projectPath : option string) : string :=
  if Js.truthy projectPath then default "" projectPath else processCwd host.

Definition gitHealthCommands (projectPath : option string) : list CommandExecution :=
  (λ a, {| command := "git"; args := Some a;
           workingDirectory := Some (pathOrCwd projectPath);
           timeout := None; environment := None |})
  <$> [["status"]; ["remote"; "-v"]; ["log"; "--oneline"; "-5"]].



(** [ClaudeCommands.runEnhancedMonitoring], the caller of the
    monitoring script. *)
Definition runEnhancedMonitoring (mode : string) (w : W)
    : CommandResult * W * list (string * ExecOptions) :=
  execute {| command := "node";
             args := Some ["scripts/enhanced-monitoring.js"; mode];
             workingDirectory := Some (processCwd host);
             timeout := Some 120000%N;
             environment := None |} w.

End Executor.

End Commands.

(** ** More concrete runs *)

Module MoreScenarios.

(** A stalled session that keeps asking, whatever is typed. *)
Definition stillWorld : Script := [
  ("/", capturePaneCmd "dev", [Some Scenario.askScreen])
].

(** A first line of exactly fifty characters. *)
Definition fiftyChars : string :=
  "Nightly build finished without a single test fail.".

(** [s.repeat(n)] *)
Fixpoint times (n : nat) (s : string) : string :=
  match n with
  | 0 => ""
  | S n' => s +:+ times n' s
  end.

(** U+00A0, the no-break space; U+00E9, an accented letter of two bytes;
    U+1F600, a face of four bytes and two code units, and the first
    half of its surrogate pair, U+D83D. *)
Definition nbsp : string := String "194"%char (String "160"%char "").
Definition eAcute : string := String "195"%char (String "169"%char "").
Definition grin : string :=
  String "240"%char (String "159"%char (String "152"%char (String "128"%char ""))).
Definition grinHigh : string :=
  String "237"%char (String "160"%char (String "189"%char "")).

(** The status oracle prints a no-break space and a line feed. *)
Definition blankWorld : Script := [
  ("/", "python3 " +:+ mcpScript, [Some (nbsp +:+ Js.nl)])
].

(** A registry whose first project is called [__proto__]; both paths
    hold a clean repository. *)
Definition protoHost : Host Script :=
  scripted [mcpScript; "/srv/web"; "/srv/api"] []
    [("__proto__", "/srv/web"); ("api", "/srv/api")].
Definition protoWorld : Script := [
  Scenario.mcpOk;
  ("/srv/web", gitLogCmd, [Some "9fceb02|Ann|2 days ago|Initial import"]);
  ("/srv/web", gitStatusCmd, [Some ""]);
  ("/srv/web", gitBranchCmd, [Some "main"]);
  ("/srv/api", gitLogCmd, [Some "4be1a77|Bo|3 hours ago|Add retry"]);
  ("/srv/api", gitStatusCmd, [Some ""]);
  ("/srv/api", gitBranchCmd, [Some "main"])
].

(** A dashboard host on which every command succeeds and takes five
    ticks of the clock. *)
Definition okHost : Commands.ExecHost Z :=
  {| Commands.execAsync command options w :=
       (Commands.Resolved (" done" +:+ Js.nl) "", (w + 5)%Z);
     Commands.now w := w;
     Commands.processCwd := "/srv/dash";
     Commands.processEnv := {["PATH" := "/usr/bin"]} |}.

(** The same host outside a repository with remotes: [git remote]
    fails with status 128. *)
Definition noRemoteHost : Commands.ExecHost Z :=
  {| Commands.execAsync command options w :=
       (if String.prefix "git remote" command
        then Commands.Rejected None (Some ("fatal: not a git repository" +:+ Js.nl))
               (Some 128%Z) "Command failed: git remote -v"
        else Commands.Resolved (" done" +:+ Js.nl) "",
        (w + 5)%Z);
     Commands.now w := w;
     Commands.processCwd := "/srv/dash";
     Commands.processEnv := {["PATH" := "/usr/bin"]} |}.

Definition listHome : Commands.CommandExecution :=
  {| Commands.command := "ls";
     Commands.args := Some ["-la"];
     Commands.workingDirectory := None;
     Commands.timeout := Some 0%N;
     Commands.environment := Some {["PATH" := "/opt/bin"]} |}.

End MoreScenarios.

(** * Properties *)

Example includes_ex : Js.includes "Continue? (y/n) now" "(y/n)" = true.
Proof. reflexivity. Qed.

Example split_ex : Js.split "|"%char "ab|c||" = ["ab"; "c"; ""; ""].
Proof. reflexivity. Qed.

Example trim_ex : Js.trim (" a b " +:+ Js.nl) = "a b".
Proof. reflexivity. Qed.

Example slice_ex :
  Js.slice_last 2 [1; 2; 3] = [2; 3] ∧ Js.slice_last 5 [1; 2] = [1; 2].
Proof. split; reflexivity. Qed.

Section Properties.
Context {W : Type} (host : Host W).
Implicit Types (p : Proc W) (t : list Event).

(** ** Sequencing *)

Lemma events_bind {A B} (m : M W A) (k : A → M W B) p :
  events (bind m k p) = events (m p) ++ events (k (value (m p)) (final (m p))).
Proof. reflexivity. Qed.

Lemma value_bind {A B} (m : M W A) (k : A → M W B) p :
  value (bind m k p) = value (k (value (m p)) (final (m p))).
Proof. reflexivity. Qed.

Lemma final_bind {A B} (m : M W A) (k : A → M W B) p :
  final (bind m k p) = final (k (value (m p)) (final (m p))).
Proof. reflexivity. Qed.

Lemma value_ret {A} (a : A) p : value (ret a p) = a.
Proof. reflexivity. Qed.

Lemma attempts_app t1 t2 : attempts (t1 ++ t2) = attempts t1 + attempts t2.
Proof. unfold attempts. by rewrite List.filter_app, length_app. Qed.

Lemma notifications_app t1 t2 :
  notifications (t1 ++ t2) = notifications t1 + notifications t2.
Proof. unfold notifications. by rewrite List.filter_app, length_app. Qed.

Lemma cwd_exec command p : cwd (final (exec host command p)) = cwd p.
Proof. reflexivity. Qed.

Lemma events_exec command p :
  events (exec host command p) =
  [EvExec (cwd p) command (value (exec host command p))].
Proof. reflexivity. Qed.

(** ** Stall detection *)

(** C4.  Among the patterns the screen shows, the one that comes first
    in the list is the one recorded: the scan pushes a single entry,
    whose [pattern] field is that pattern, whose [session] is the
    session scanned and whose [content] is the last five lines of the
    screen, and it looks at no later pattern, whatever the remaining
    ones match. *)
Theorem first_match_wins (sessionName : string) (screenContent : option string)
    (before : list string) (pattern : string) (after : list string)
    (stuckSessions : list StuckSession) :
  Forall (λ q, Js.shows screenContent q = false) before →
  Js.shows screenContent pattern = true →
  scanPatterns sessionName screenContent (before ++ pattern :: after) stuckSessions
  = stuckSessions ++ [stuckEntry sessionName pattern screenContent] ∧
  ∃ screen,
    screenContent = Some screen ∧
    scanPatterns sessionName screenContent (before ++ pattern :: after) stuckSessions
    = stuckSessions ++
      [{| session := sessionName;
          pattern := pattern;
          content :=
            Js.join Js.nl (Js.slice_last 5 (Js.split "010"%char screen)) |}].
Proof.
  intros Hbefore Hshown.
  assert (scanPatterns sessionName screenContent (before ++ pattern :: after)
            stuckSessions
          = stuckSessions ++ [stuckEntry sessionName pattern screenContent])
    as Heq.
  { induction Hbefore as [|q before Hq _ IH]; simpl.
    - by rewrite Hshown.
    - by rewrite Hq. }
  split; [done|].
  destruct screenContent as [screen|]; [|discriminate Hshown].
  exists screen. by rewrite Heq.
Qed.

(** A screen that shows none of the patterns is passed over. *)
Lemma quiet_not_stuck (sessionName : string) (screenContent : option string)
    (patterns : list string) (stuckSessions : list StuckSession) :
  Forall (λ q, Js.shows screenContent q = false) patterns →
  scanPatterns sessionName screenContent patterns stuckSessions = stuckSessions.
Proof. induction 1 as [|q patterns Hq _ IH]; simpl; [done|]. by rewrite Hq. Qed.

(** C5, as the code has it.  A session whose capture failed, or came
    back empty, is never recorded as stuck: the scan pushes nothing, and
    detection goes on with the remaining sessions as if the session had
    not been listed. *)
Theorem no_capture_not_stuck (sessionName : string) (patterns : list string)
    (stuckSessions : list StuckSession) :
  scanPatterns sessionName None patterns stuckSessions = stuckSessions ∧
  scanPatterns sessionName (Some "") patterns stuckSessions = stuckSessions ∧
  ∀ (line : string) (rest : list string) p,
    let r := exec host (capturePaneCmd (default "" (head (Js.split ":"%char line)))) p in
    Js.truthy (value r) = false →
    value (scanSessions host (line :: rest) stuckSessions p) =
    value (scanSessions host rest stuckSessions (final r)).
Proof.
  split; [|split].
  - induction patterns as [|q rest IH]; simpl; done.
  - induction patterns as [|q rest IH]; simpl; done.
  - intros line rest p r Hlost. cbn [scanSessions]. rewrite value_bind.
    fold r. rewrite quiet_not_stuck; [done|].
    apply Forall_forall. intros q _.
    unfold Js.shows. destruct (value r) as [screen|]; [|done].
    by rewrite Hlost.
Qed.


(** ** Recovery *)

Lemma tryFixes_cons (stuck : StuckSession) (key : string) (rest : list string) p :
  let r1 := exec host (sendKeysCmd (session stuck) key) p in
  let r2 := exec host (capturePaneCmd (session stuck)) (final r1) in
  events (tryFixes host stuck (key :: rest) p) =
    events r1 ++ events r2 ++
    (if noLongerShows (value r2) (pattern stuck)
     then [EvLog (LogFixed (session stuck) key)]
     else events (tryFixes host stuck rest (final r2))) ∧
  final (tryFixes host stuck (key :: rest) p) =
    (if noLongerShows (value r2) (pattern stuck)
     then final r2
     else final (tryFixes host stuck rest (final r2))).
Proof.
  intros r1 r2. simpl tryFixes. rewrite !events_bind, !final_bind.
  fold r1. fold r2. by destruct (noLongerShows _ _).
Qed.

Lemma attempts_tryFixes (stuck : StuckSession) (keys : list string) p :
  attempts (events (tryFixes host stuck keys p)) ≤ length keys.
Proof.
  revert p. induction keys as [|key rest IH]; intros p; [done|].
  destruct (tryFixes_cons stuck key rest p) as [-> _].
  rewrite !events_exec, !attempts_app.
  destruct (noLongerShows _ _); simpl.
  - change (1 + (0 + 0) ≤ S (length rest)). lia.
  - specialize (IH (final (exec host (capturePaneCmd (session stuck))
                     (final (exec host (sendKeysCmd (session stuck) key) p))))).
    change (1 + (0 + attempts (events (tryFixes host stuck rest
              (final (exec host (capturePaneCmd (session stuck))
                 (final (exec host (sendKeysCmd (session stuck) key) p)))))))
            ≤ S (length rest)).
    lia.
Qed.

Lemma sendKeys_not_capture (s1 s2 key : string) :
  sendKeysCmd s1 key ≠ capturePaneCmd s2.
Proof.
  intros Heq. apply (f_equal (String.prefix "tmux s")) in Heq. discriminate.
Qed.

Lemma short_circuit_tryFixes (stuck : StuckSession) (keys : list string) p
    t1 dir out t2 :
  events (tryFixes host stuck keys p)
    = t1 ++ EvExec dir (capturePaneCmd (session stuck)) out :: t2 →
  noLongerShows out (pattern stuck) = true →
  ∃ key, key ∈ keys ∧ t2 = [EvLog (LogFixed (session stuck) key)].
Proof.
  revert p t1. induction keys as [|key rest IH]; intros p t1 Ht Hout.
  { by destruct t1. }
  destruct (tryFixes_cons stuck key rest p) as [Hev _].
  rewrite Hev, !events_exec in Ht. clear Hev. simpl in Ht.
  destruct t1 as [|e1 t1]; simpl in Ht.
  { apply (f_equal (λ l, isSendKeys <$> head l)) in Ht. discriminate Ht. }
  injection Ht as _ Ht.
  destruct t1 as [|e2 t1]; simpl in Ht.
  { injection Ht as _ Hv Ht. rewrite Hv, Hout in Ht.
    exists key. split; [left|done]. }
  injection Ht as _ Ht.
  destruct (noLongerShows (value _) _).
  - destruct t1 as [|e3 t1]; [discriminate|]. by destruct t1.
  - destruct (IH _ _ Ht Hout) as (k & Hk & ->).
    exists k. split; [by right|done].
Qed.

Lemma attempts_fixSessions (stuckSessions : list StuckSession) p :
  attempts (events (fixSessions host stuckSessions p))
  ≤ length fixes * length stuckSessions.
Proof.
  revert p. induction stuckSessions as [|stuck rest IH]; intros p; [done|].
  cbn [fixSessions]. rewrite !events_bind, !attempts_app.
  pose proof (attempts_tryFixes stuck fixes (final (log (LogFixing (session stuck)) p))).
  pose proof (IH (final (tryFixes host stuck fixes
                           (final (log (LogFixing (session stuck)) p))))).
  change (attempts (events (log (LogFixing (session stuck)) p))) with 0.
  cbn [length]. lia.
Qed.

(** C6.  The recovery loop of one stuck session injects at most as many
    inputs as there are fallback inputs, five, so that a whole recovery
    phase injects at most five per stuck session; and once a re-capture
    no longer shows the pattern, the only thing the loop still does is
    report the session fixed: no further input is injected. *)
Theorem recovery_bounded_short_circuit (stuck : StuckSession) p :
  length fixes = 5 ∧
  attempts (events (tryFixes host stuck fixes p)) ≤ length fixes ∧
  (∀ stuckSessions,
     attempts (events (autoFixStuckPrompts host stuckSessions p))
     ≤ length fixes * length stuckSessions) ∧
  ∀ t1 dir out t2,
    events (tryFixes host stuck fixes p)
      = t1 ++ EvExec dir (capturePaneCmd (session stuck)) out :: t2 →
    noLongerShows out (pattern stuck) = true →
    attempts t2 = 0 ∧
    ∃ key, key ∈ fixes ∧ t2 = [EvLog (LogFixed (session stuck) key)].
Proof.
  split; [done|]. split; [apply attempts_tryFixes|]. split.
  { intros stuckSessions. unfold autoFixStuckPrompts.
    destruct (length stuckSessions =? 0); [cbn; lia|].
    rewrite events_bind, attempts_app. apply attempts_fixSessions. }
  intros t1 dir out t2 Ht Hout.
  destruct (short_circuit_tryFixes _ _ _ _ _ _ _ Ht Hout) as (key & Hkey & ->).
  split; [done|]. by exists key.
Qed.

Lemma fixSessions_app (before after : list StuckSession) p :
  events (fixSessions host (before ++ after) p) =
    events (fixSessions host before p) ++
    events (fixSessions host after (final (fixSessions host before p))) ∧
  final (fixSessions host (before ++ after) p) =
    final (fixSessions host after (final (fixSessions host before p))).
Proof.
  revert p. induction before as [|stuck before IH]; intros p; [done|].
  rewrite <- app_comm_cons. cbn [fixSessions].
  rewrite !events_bind, !final_bind.
  destruct (IH (final (tryFixes host stuck fixes (final (log (LogFixing (session stuck)) p)))))
    as [-> ->].
  by rewrite !app_assoc.
Qed.

(** C7, as the code has it.  When the re-capture of an attempt fails or
    comes back empty, the loop of that session stops there and reports
    the session fixed, whether or not the injection before it failed.
    A failed injection alone stops nothing: if the re-capture still
    shows the pattern the loop goes on with the next input.  Every
    stuck session gets its own full loop, started from the state its
    predecessors left, whatever happened in theirs. *)
Theorem lost_session_reported_fixed (stuck : StuckSession) (key : string)
    (rest : list string) p :
  let r1 := exec host (sendKeysCmd (session stuck) key) p in
  let r2 := exec host (capturePaneCmd (session stuck)) (final r1) in
  (Js.truthy (value r2) = false →
   events (tryFixes host stuck (key :: rest) p) =
     [EvExec (cwd p) (sendKeysCmd (session stuck) key) (value r1);
      EvExec (cwd p) (capturePaneCmd (session stuck)) (value r2);
      EvLog (LogFixed (session stuck) key)]) ∧
  (value r1 = None →
   noLongerShows (value r2) (pattern stuck) = false →
   events (tryFixes host stuck (key :: rest) p) =
     [EvExec (cwd p) (sendKeysCmd (session stuck) key) None;
      EvExec (cwd p) (capturePaneCmd (session stuck)) (value r2)] ++
     events (tryFixes host stuck rest (final r2))) ∧
  (∀ before after,
     let p1 := final (fixSessions host before p) in
     let p2 := final (tryFixes host stuck fixes p1) in
     events (fixSessions host (before ++ stuck :: after) p) =
       events (fixSessions host before p) ++
       EvLog (LogFixing (session stuck)) ::
       events (tryFixes host stuck fixes p1) ++
       events (fixSessions host after p2)).
Proof.
  intros r1 r2.
  destruct (tryFixes_cons stuck key rest p) as [Hev _]. fold r1 r2 in Hev.
  split; [|split].
  - intros Hlost. rewrite Hev. unfold noLongerShows. by rewrite Hlost.
  - intros Hsend Hstill. rewrite Hev, Hstill.
    unfold r2, r1 in *. rewrite !events_exec. by rewrite Hsend.
  - intros before after p1 p2.
    destruct (fixSessions_app before (stuck :: after) p) as [-> _].
    done.
Qed.

(** ** Ground-truth verification *)

Lemma cwd_inspectProject (name path : string) (acc : gmap string GitEntry) p :
  cwd (final (inspectProject host name path acc p)) =
  if entered host path then path else cwd p.
Proof.
  unfold inspectProject, entered.
  destruct (existsSync host path); [|done].
  destruct (chdirError host path) as [msg|]; [done|].
  simpl. rewrite !final_bind.
  destruct (Js.truthy _); [|done].
  by destruct (_ !! 3).
Qed.

Lemma cwd_inspectAll (entries : list (string * string))
    (acc : gmap string GitEntry) p :
  cwd (final (inspectAll host entries acc p)) =
  default (cwd p) (last (List.filter (entered host) entries.*2)).
Proof.
  revert acc p. induction entries as [|[name path] entries IH]; intros acc p.
  { done. }
  simpl. rewrite final_bind, IH, cwd_inspectProject.
  destruct (entered host path); [|done].
  rewrite last_cons. by destruct (last _).
Qed.

(** C10, as the code has it.  The verification phase leaves the process
    in the last registry path that exists and could be entered, and
    where it started if there is none: the working directory is not
    restored. *)
Theorem verification_leaves_cwd p :
  cwd (final (checkGitProgress host p)) =
  default (cwd p) (last (List.filter (entered host) (projectPaths host).*2)).
Proof. unfold checkGitProgress. rewrite final_bind. apply cwd_inspectAll. Qed.

Lemma lookup_assign_ne {A} (key other : string) (v : A) (obj : gmap string A) :
  other ≠ key → Js.assign key v obj !! other = obj !! other.
Proof.
  intros Hne. unfold Js.assign.
  destruct (String.eqb key "__proto__"); [done|]. by rewrite lookup_insert_ne.
Qed.

Lemma lookup_assign_eq {A} (key : string) (v : A) (obj : gmap string A) :
  key ≠ "__proto__" → Js.assign key v obj !! key = Some v.
Proof.
  intros Hne. unfold Js.assign. apply String.eqb_neq in Hne. rewrite Hne.
  by rewrite lookup_insert_eq.
Qed.

Lemma assign_proto {A} (v : A) (obj : gmap string A) :
  Js.assign "__proto__" v obj = obj.
Proof. done. Qed.

Lemma value_inspectProject_entered (name path : string)
    (acc : gmap string GitEntry) p :
  existsSync host path = true → chdirError host path = None →
  let r1 := exec host gitLogCmd (Build_Proc path (world p)) in
  let r2 := exec host gitStatusCmd (final r1) in
  let r3 := exec host gitBranchCmd (final r2) in
  fourFields (value r1) →
  value (inspectProject host name path acc p) =
  Js.assign name (gitInfo path (value r1) (value r2) (value r3)) acc.
Proof.
  intros Hex Hcd r1 r2 r3 Hfour. unfold inspectProject. rewrite Hex, Hcd.
  rewrite !value_bind. fold r1. fold r2. fold r3.
  change (value (exec host gitLogCmd (final (process_chdir path p))))
    with (value r1).
  unfold fourFields in Hfour.
  destruct (Js.truthy (value r1)); [|done].
  by destruct Hfour as [message ->].
Qed.

Lemma lookup_inspectProject_ne (name path other : string)
    (acc : gmap string GitEntry) p :
  other ≠ name →
  value (inspectProject host name path acc p) !! other = acc !! other.
Proof.
  intros Hne. unfold inspectProject.
  destruct (existsSync host path); [|done].
  destruct (chdirError host path) as [msg|].
  { rewrite !value_bind, value_ret. by rewrite lookup_assign_ne. }
  rewrite !value_bind.
  destruct (Js.truthy _).
  - destruct (_ !! 3); rewrite !value_bind, value_ret;
      by rewrite !lookup_assign_ne.
  - rewrite !value_bind, value_ret. by rewrite lookup_assign_ne.
Qed.

Lemma lookup_inspectProject_eq (name path : string)
    (acc : gmap string GitEntry) p :
  name ≠ "__proto__" →
  is_Some (value (inspectProject host name path acc p) !! name) ↔
  existsSync host path = true ∨ is_Some (acc !! name).
Proof.
  intros Hname. unfold inspectProject.
  destruct (existsSync host path).
  2:{ rewrite !value_bind, value_ret. split; [by right|]. by intros [?|?]. }
  split; [by left|intros _].
  destruct (chdirError host path) as [msg|].
  { rewrite !value_bind, value_ret. by rewrite lookup_assign_eq. }
  rewrite !value_bind.
  destruct (Js.truthy _).
  - destruct (_ !! 3); rewrite !value_bind, value_ret;
      by rewrite lookup_assign_eq.
  - rewrite !value_bind, value_ret. by rewrite lookup_assign_eq.
Qed.

Lemma value_inspectProject_proto (path : string)
    (acc : gmap string GitEntry) p :
  value (inspectProject host "__proto__" path acc p) = acc.
Proof.
  unfold inspectProject.
  destruct (existsSync host path); [|done].
  destruct (chdirError host path) as [msg|]; [done|].
  rewrite !value_bind.
  destruct (Js.truthy _); [|done]. by destruct (_ !! 3).
Qed.

Lemma inspectAll_app (before after : list (string * string))
    (acc : gmap string GitEntry) p :
  let done := inspectAll host before acc p in
  value (inspectAll host (before ++ after) acc p) =
    value (inspectAll host after (value done) (final done)) ∧
  final (inspectAll host (before ++ after) acc p) =
    final (inspectAll host after (value done) (final done)) ∧
  events (inspectAll host (before ++ after) acc p) =
    events done ++ events (inspectAll host after (value done) (final done)).
Proof.
  revert acc p. induction before as [|[name path] before IH]; intros acc p.
  { done. }
  rewrite <- app_comm_cons. cbn [inspectAll].
  rewrite !value_bind, !final_bind, !events_bind.
  destruct (IH (value (inspectProject host name path acc p))
               (final (inspectProject host name path acc p))) as (-> & -> & ->).
  by rewrite app_assoc.
Qed.

Lemma lookup_inspectAll_ne (entries : list (string * string)) (other : string)
    (acc : gmap string GitEntry) p :
  other ∉ entries.*1 →
  value (inspectAll host entries acc p) !! other = acc !! other.
Proof.
  revert acc p. induction entries as [|[name path] entries IH]; intros acc p Hnot.
  { done. }
  rewrite fmap_cons, not_elem_of_cons in Hnot. destruct Hnot as [Hne Hnot].
  cbn [inspectAll]. rewrite value_bind, IH by done.
  by apply lookup_inspectProject_ne.
Qed.

Lemma lookup_inspectAll (entries : list (string * string)) (name : string)
    (acc : gmap string GitEntry) p :
  name ≠ "__proto__" →
  is_Some (value (inspectAll host entries acc p) !! name) ↔
  (∃ path, (name, path) ∈ entries ∧ existsSync host path = true) ∨
  is_Some (acc !! name).
Proof.
  intros Hname.
  revert acc p. induction entries as [|[name' path'] entries IH]; intros acc p.
  { simpl. split; [by right|]. intros [(path & Hin & _)|?]; [|done].
    by apply elem_of_nil in Hin. }
  cbn [inspectAll]. rewrite value_bind, IH. clear IH.
  destruct (decide (name = name')) as [->|Hne].
  - rewrite lookup_inspectProject_eq by done. split.
    + intros [(path & Hin & Hex)|[Hex|Hacc]].
      * left. exists path. split; [by right|done].
      * left. exists path'. split; [by left|done].
      * by right.
    + intros [(path & Hin & Hex)|Hacc].
      * apply elem_of_cons in Hin as [Heq|Hin].
        -- injection Heq as ->. right. by left.
        -- left. by exists path.
      * right. by right.
  - rewrite lookup_inspectProject_ne by done. split.
    + intros [(path & Hin & Hex)|Hacc]; [|by right].
      left. exists path. split; [by right|done].
    + intros [(path & Hin & Hex)|Hacc]; [|by right].
      apply elem_of_cons in Hin as [Heq|Hin]; [congruence|].
      left. by exists path.
Qed.

Lemma lookup_inspectAll_proto (entries : list (string * string))
    (acc : gmap string GitEntry) p :
  value (inspectAll host entries acc p) !! "__proto__" = acc !! "__proto__".
Proof.
  revert acc p. induction entries as [|[name path] entries IH]; intros acc p.
  { done. }
  cbn [inspectAll]. rewrite value_bind, IH.
  destruct (decide (name = "__proto__")) as [->|Hne].
  - by rewrite value_inspectProject_proto.
  - by apply lookup_inspectProject_ne.
Qed.

(** A project whose path is missing is passed over: the loop goes on as
    if the registry did not list it. *)
Lemma inspectAll_skip (before after : list (string * string))
    (name path : string) (acc : gmap string GitEntry) p :
  existsSync host path = false →
  value (inspectAll host (before ++ (name, path) :: after) acc p) =
    value (inspectAll host (before ++ after) acc p) ∧
  final (inspectAll host (before ++ (name, path) :: after) acc p) =
    final (inspectAll host (before ++ after) acc p).
Proof.
  intros Hmissing.
  destruct (inspectAll_app before ((name, path) :: after) acc p) as (-> & -> & _).
  destruct (inspectAll_app before after acc p) as (-> & -> & _).
  cbn [inspectAll]. rewrite value_bind, final_bind.
  unfold inspectProject at 1 2 3 4. by rewrite Hmissing.
Qed.

(** C8, as the code has it, for a project whose name is an ordinary
    property key (any name but [__proto__]).  A failed inspection does
    not set [error]: its field takes the default ([null] and ['unknown']
    for the last commit, [0] pending changes, branch ['unknown']),
    provided the commit line, when there is one, has its four fields.
    Whatever fails, the entry of a project is the one its own inspection
    computes in the state its predecessors left; later projects do not
    touch it, and a project whose path exists always gets one. *)
Theorem failed_inspection_defaults (name path : string) :
  name ≠ "__proto__" →
  (∀ (acc : gmap string GitEntry) p,
     existsSync host path = true → chdirError host path = None →
     let r1 := exec host gitLogCmd (Build_Proc path (world p)) in
     let r2 := exec host gitStatusCmd (final r1) in
     let r3 := exec host gitBranchCmd (final r2) in
     let entry := value (inspectProject host name path acc p) !! name in
     (value r1 = None →
      ∃ n branch, entry = Some (GitInfo path None n branch (Some "unknown"))) ∧
     (value r2 = None → fourFields (value r1) →
      ∃ commit branch activity,
        entry = Some (GitInfo path commit 0 branch activity)) ∧
     (value r3 = None → fourFields (value r1) →
      ∃ commit n activity,
        entry = Some (GitInfo path commit n "unknown" activity))) ∧
  (∀ (before after : list (string * string)) (acc : gmap string GitEntry) p,
     NoDup (before ++ (name, path) :: after).*1 →
     let done := inspectAll host before acc p in
     value (inspectAll host (before ++ (name, path) :: after) acc p) !! name =
       value (inspectProject host name path (value done) (final done)) !! name ∧
     (existsSync host path = true →
      is_Some (value (inspectAll host (before ++ (name, path) :: after) acc p)
                 !! name))).
Proof.
  intros Hname. split.
  - intros acc p Hex Hcd r1 r2 r3 entry.
    pose proof (value_inspectProject_entered name path acc p Hex Hcd) as Hval.
    cbv zeta in Hval. fold r1 r2 r3 in Hval.
    repeat split.
    + intros Hr1. unfold entry. rewrite Hval.
      2:{ unfold fourFields. by rewrite Hr1. }
      rewrite lookup_assign_eq by done. unfold gitInfo. rewrite Hr1. simpl. eauto.
    + intros Hr2 Hfour. unfold entry.
      rewrite Hval, lookup_assign_eq by done.
      unfold gitInfo. rewrite Hr2. simpl. eauto.
    + intros Hr3 Hfour. unfold entry.
      rewrite Hval, lookup_assign_eq by done.
      unfold gitInfo. rewrite Hr3. simpl. eauto.
  - intros before after acc p Hnodup done.
    rewrite fmap_app, fmap_cons in Hnodup.
    apply NoDup_app in Hnodup as (_ & _ & Hnodup).
    apply NoDup_cons in Hnodup as [Hnot _].
    assert (value (inspectAll host (before ++ (name, path) :: after) acc p) !! name =
            value (inspectProject host name path (value done) (final done)) !! name)
      as Heq.
    { destruct (inspectAll_app before ((name, path) :: after) acc p) as [-> _].
      cbn [inspectAll]. rewrite value_bind.
      by apply lookup_inspectAll_ne. }
    split; [done|]. intros Hex. rewrite Heq.
    apply lookup_inspectProject_eq; [done|]. by left.
Qed.

Lemma NoDup_filter_fst (f : string * string → bool)
    (entries : list (string * string)) :
  NoDup entries.*1 → NoDup (List.filter f entries).*1.
Proof.
  induction entries as [|[name path] entries IH]; simpl; [done|].
  rewrite NoDup_cons. intros [Hnot Hnodup].
  destruct (f (name, path)); [|auto].
  rewrite fmap_cons. apply NoDup_cons. split; [|auto].
  intros Hin. apply Hnot.
  apply list_elem_of_fmap in Hin as ([name' path'] & Heq & Hin).
  simpl in Heq. subst name'.
  apply list_elem_of_In, filter_In in Hin as [Hin _].
  apply list_elem_of_fmap. exists (name, path').
  split; [done|]. by apply list_elem_of_In.
Qed.

Lemma NoDup_fst_functional (entries : list (string * string))
    (name path1 path2 : string) :
  NoDup entries.*1 →
  (name, path1) ∈ entries → (name, path2) ∈ entries → path1 = path2.
Proof.
  induction entries as [|[n q] entries IH]; intros Hnodup H1 H2.
  { by apply elem_of_nil in H1. }
  rewrite fmap_cons in Hnodup. apply NoDup_cons in Hnodup as [Hnot Hnodup].
  apply elem_of_cons in H1 as [H1|H1]; apply elem_of_cons in H2 as [H2|H2].
  - congruence.
  - injection H1 as ? ?; subst n q. destruct Hnot.
    apply list_elem_of_fmap. by exists (name, path2).
  - injection H2 as ? ?; subst n q. destruct Hnot.
    apply list_elem_of_fmap. by exists (name, path1).
  - auto.
Qed.

Lemma dom_inspectAll (entries : list (string * string)) p :
  "__proto__" ∉ entries.*1 →
  dom (value (inspectAll host entries ∅ p)) =
  list_to_set (List.filter (λ e, existsSync host e.2) entries).*1.
Proof.
  intros Hproto. apply set_eq. intros name.
  rewrite elem_of_dom, elem_of_list_to_set, list_elem_of_fmap.
  destruct (decide (name = "__proto__")) as [->|Hname].
  { rewrite lookup_inspectAll_proto, lookup_empty. split.
    - intros Hsome. by destruct Hsome.
    - intros ([name' path] & Heq & Hin). simpl in Heq. subst name'.
      apply list_elem_of_In, filter_In in Hin as [Hin _].
      destruct Hproto. apply list_elem_of_fmap.
      exists ("__proto__", path). split; [done|]. by apply list_elem_of_In. }
  rewrite lookup_inspectAll by done.
  split.
  - intros [(path & Hin & Hex)|Hempty].
    + exists (name, path). split; [done|].
      apply list_elem_of_In, filter_In. split; [|done].
      by apply list_elem_of_In.
    + rewrite lookup_empty in Hempty. by destruct Hempty.
  - intros ([name' path] & Heq & Hin). simpl in Heq. subst name'.
    apply list_elem_of_In, filter_In in Hin as [Hin Hex].
    left. exists path. split; [|done]. by apply list_elem_of_In.
Qed.

(** The fields of the report, by the phase that computes them. *)
Lemma report_fields p :
  let p1 := final (runMCPMonitoring host "detailed" p) in
  let p2 := final (checkGitProgress host p1) in
  let r := value (generateMonitoringReport host p) in
  mcp r = value (runMCPMonitoring host "detailed" p) ∧
  gitProgress r = value (checkGitProgress host p1) ∧
  stuckSessions r = value (detectStuckPrompts host p2) ∧
  projectsChecked (summary r) = size (gitProgress r) ∧
  overallHealth (summary r) =
    (if (length (stuckSessions r) =? 0) && success (mcp r)
     then excellent else needs_attention).
Proof. done. Qed.

(** C3, as the code has it, for project names that are ordinary
    property keys (any name but [__proto__]).  The report has an entry
    for such a name exactly when the registry gives that name a path
    that exists; with distinct names that is one entry per such project,
    and a project whose path is missing has none.  A missing path does
    not stop the loop: the git section of the report is the one the
    remaining projects would give had the missing one not been listed.
    The report is saved as returned; the registry is taken to load and
    the report file to be writable. *)
Theorem git_entries_exactly_existing p :
  NoDup (projectPaths host).*1 →
  let r := generateMonitoringReport host p in
  (∀ name,
     name ≠ "__proto__" →
     (is_Some (gitProgress (value r) !! name) ↔
      ∃ path, (name, path) ∈ projectPaths host ∧ existsSync host path = true)) ∧
  ("__proto__" ∉ (projectPaths host).*1 →
   projectsChecked (summary (value r)) =
     length (List.filter (λ e, existsSync host e.2) (projectPaths host))) ∧
  (∀ name path,
     (name, path) ∈ projectPaths host → existsSync host path = false →
     gitProgress (value r) !! name = None) ∧
  (∀ before name path after,
     projectPaths host = before ++ (name, path) :: after →
     existsSync host path = false →
     gitProgress (value r) =
       value (inspectAll host (before ++ after) ∅
                (final (runMCPMonitoring host "detailed" p)))) ∧
  EvSaveReport (value r) ∈ events r.
Proof.
  intros Hnodup r.
  destruct (report_fields p) as (_ & Hgit & _ & Hcount & _).
  fold r in Hgit, Hcount.
  assert (∀ name,
     name ≠ "__proto__" →
     (is_Some (gitProgress (value r) !! name) ↔
      ∃ path, (name, path) ∈ projectPaths host ∧ existsSync host path = true))
    as Hentries.
  { intros name Hname. rewrite Hgit. unfold checkGitProgress.
    rewrite value_bind, lookup_inspectAll, lookup_empty by done.
    split; [|by left]. intros [?|Hempty]; [done|]. by destruct Hempty. }
  split; [done|]. split; [|split; [|split]].
  - intros Hproto. rewrite Hcount, Hgit. unfold checkGitProgress.
    rewrite value_bind, <- size_dom, dom_inspectAll by done.
    rewrite size_list_to_set by by apply NoDup_filter_fst.
    by rewrite length_fmap.
  - intros name path Hin Hmissing.
    destruct (decide (name = "__proto__")) as [->|Hname].
    { rewrite Hgit. unfold checkGitProgress.
      by rewrite value_bind, lookup_inspectAll_proto, lookup_empty. }
    apply eq_None_not_Some. rewrite Hentries by done.
    intros (path' & Hin' & Hex).
    assert (path' = path) as ->; [|congruence].
    by eapply NoDup_fst_functional.
  - intros before name path after Hreg Hmissing.
    rewrite Hgit. unfold checkGitProgress. rewrite value_bind, Hreg.
    by destruct (inspectAll_skip before after name path ∅
                   (final (log LogGitChecking
                             (final (runMCPMonitoring host "detailed" p))))
                   Hmissing) as [-> _].
  - unfold r, generateMonitoringReport.
    rewrite !events_bind.
    do 5 (apply elem_of_app; right).
    apply elem_of_app. left. rewrite !value_bind. by left.
Qed.

(** ** The report and the exit status *)

(** C1, as the code has it.  The health label is [excellent] exactly
    when no session was detected as stuck, before any recovery, and the
    status oracle reported success; otherwise it is [needs-attention].
    The git entries play no part in it. *)
Theorem health_from_detection_and_oracle p :
  let p1 := final (runMCPMonitoring host "detailed" p) in
  let p2 := final (checkGitProgress host p1) in
  let r := value (generateMonitoringReport host p) in
  (overallHealth (summary r) = excellent ↔
   value (detectStuckPrompts host p2) = [] ∧
   success (value (runMCPMonitoring host "detailed" p)) = true) ∧
  (overallHealth (summary r) ≠ excellent →
   overallHealth (summary r) = needs_attention) ∧
  stuckSessions r = value (detectStuckPrompts host p2) ∧
  mcp r = value (runMCPMonitoring host "detailed" p).
Proof.
  intros p1 p2 r.
  destruct (report_fields p) as (Hmcp & _ & Hstuck & _ & Hhealth).
  fold p1 p2 r in Hmcp, Hstuck, Hhealth.
  rewrite Hhealth, Hmcp, Hstuck.
  split; [|split; [|done]].
  - destruct (value (detectStuckPrompts host p2)) as [|stuck rest];
      destruct (success _); simpl; split; try done.
    + by intros [_ ?].
    + by intros [? _].
    + by intros [? _].
  - by destruct (_ && _).
Qed.

(** C9, as the code has it.  The exit status follows the mode: in the
    full mode, which is also the default and the fallback for any other
    word, [0] for [excellent] and [1] otherwise; in [quick], [0] when
    the oracle succeeded and [1] otherwise; in [git], always [0]; in
    [stuck], the script exits with the number of stuck sessions
    detected, of which the status keeps the low eight bits.  The
    registry is taken to load and the report file to be writable. *)
Theorem exit_status_by_mode (args : list string) p :
  let code := value (main host args p) in
  (modeOf args = "quick" →
   code = (if success (value (runMCPMonitoring host "quick" p)) then 0 else 1) ∧
   exitStatus code = code) ∧
  (modeOf args = "git" → code = 0 ∧ exitStatus code = 0) ∧
  (modeOf args = "stuck" →
   code = length (value (detectStuckPrompts host p)) ∧
   exitStatus code = length (value (detectStuckPrompts host p)) mod 256) ∧
  (modeOf args ≠ "quick" → modeOf args ≠ "git" → modeOf args ≠ "stuck" →
   code =
     match overallHealth (summary (value (generateMonitoringReport host p))) with
     | excellent => 0
     | needs_attention => 1
     end ∧
   exitStatus code = code).
Proof.
  unfold main. cbv zeta. split; [|split; [|split]].
  - intros ->. simpl (String.eqb _ _). cbv iota. rewrite value_bind, value_ret.
    by destruct (success _).
  - by intros ->.
  - by intros ->.
  - intros Hq Hg Hs.
    apply String.eqb_neq in Hq, Hg, Hs. rewrite Hq, Hg, Hs.
    rewrite value_bind, value_ret. by destruct (overallHealth _).
Qed.

(** ** Alerting *)

Lemma notifications_runMCP (mode : string) p :
  notifications (events (runMCPMonitoring host mode p)) = 0.
Proof.
  unfold runMCPMonitoring.
  destruct (existsSync host mcpScript); [|done]. simpl negb. cbv iota.
  destruct (String.eqb mode "quick").
  - rewrite !events_bind, !notifications_app. by destruct (Js.truthy _).
  - rewrite !events_bind, !notifications_app. by destruct (Js.truthy _).
Qed.

Lemma notifications_inspectProject (name path : string)
    (acc : gmap string GitEntry) p :
  notifications (events (inspectProject host name path acc p)) = 0.
Proof.
  unfold inspectProject.
  destruct (existsSync host path); [|done].
  destruct (chdirError host path); [done|].
  rewrite !events_bind, !notifications_app.
  destruct (Js.truthy _); [|done]. by destruct (_ !! 3).
Qed.

Lemma notifications_inspectAll (entries : list (string * string))
    (acc : gmap string GitEntry) p :
  notifications (events (inspectAll host entries acc p)) = 0.
Proof.
  revert acc p. induction entries as [|[name path] entries IH]; intros acc p.
  { done. }
  cbn [inspectAll].
  by rewrite events_bind, notifications_app, notifications_inspectProject, IH.
Qed.

Lemma notifications_checkGit p :
  notifications (events (checkGitProgress host p)) = 0.
Proof.
  unfold checkGitProgress.
  by rewrite events_bind, notifications_app, notifications_inspectAll.
Qed.

Lemma notifications_scanSessions (sessions : list string)
    (acc : list StuckSession) p :
  notifications (events (scanSessions host sessions acc p)) = 0.
Proof.
  revert acc p. induction sessions as [|s sessions IH]; intros acc p; [done|].
  cbn [scanSessions]. by rewrite events_bind, notifications_app, IH.
Qed.

Lemma notifications_logStuck (stuckSessions : list StuckSession) p :
  notifications (events (logStuck stuckSessions p)) = 0.
Proof.
  revert p. induction stuckSessions as [|s rest IH]; intros p; [done|].
  cbn [logStuck]. by rewrite !events_bind, !notifications_app, IH.
Qed.

Lemma notifications_detect p :
  notifications (events (detectStuckPrompts host p)) = 0.
Proof.
  unfold detectStuckPrompts. rewrite !events_bind, !notifications_app.
  destruct (Js.truthy _); [|done].
  rewrite !events_bind, !notifications_app, notifications_scanSessions.
  destruct (0 <? _); [|done].
  by rewrite !events_bind, !notifications_app, notifications_logStuck.
Qed.

Lemma notifications_tryFixes (stuck : StuckSession) (keys : list string) p :
  notifications (events (tryFixes host stuck keys p)) = 0.
Proof.
  revert p. induction keys as [|key rest IH]; intros p; [done|].
  destruct (tryFixes_cons stuck key rest p) as [-> _].
  rewrite !notifications_app. destruct (noLongerShows _ _); [done|].
  by rewrite IH.
Qed.

Lemma notifications_fixSessions (stuckSessions : list StuckSession) p :
  notifications (events (fixSessions host stuckSessions p)) = 0.
Proof.
  revert p. induction stuckSessions as [|s rest IH]; intros p; [done|].
  cbn [fixSessions].
  by rewrite !events_bind, !notifications_app, notifications_tryFixes, IH.
Qed.

Lemma notifications_autoFix (stuckSessions : list StuckSession) p :
  notifications (events (autoFixStuckPrompts host stuckSessions p)) = 0.
Proof.
  unfold autoFixStuckPrompts. destruct (_ =? 0); [done|].
  by rewrite events_bind, notifications_app, notifications_fixSessions.
Qed.

Lemma events_alert (stuckSessions : list StuckSession) p :
  events (sendTokenWasteAlert host stuckSessions p) =
  if length stuckSessions =? 0 then []
  else if existsSync host (emailScript host)
  then [EvLog LogSendingAlert;
        EvExec (cwd p) (emailCmd host stuckSessions)
          (value (exec host (emailCmd host stuckSessions) p));
        EvLog LogAlertSent]
  else [EvLog LogSendingAlert; EvLog LogEmailScriptMissing].
Proof.
  unfold sendTokenWasteAlert. destruct (_ =? 0); [done|].
  by destruct (existsSync host (emailScript host)).
Qed.

(** The trace of a full run, phase by phase. *)
Lemma events_report p :
  let p1 := final (runMCPMonitoring host "detailed" p) in
  let p2 := final (checkGitProgress host p1) in
  let p3 := final (detectStuckPrompts host p2) in
  let found := value (detectStuckPrompts host p2) in
  let r := generateMonitoringReport host p in
  events r =
    [EvLog LogGenerating] ++
    events (runMCPMonitoring host "detailed" p) ++
    events (checkGitProgress host p1) ++
    events (detectStuckPrompts host p2) ++
    (if 0 <? length found
     then events (autoFixStuckPrompts host found p3) ++
          events (sendTokenWasteAlert host found
                    (final (autoFixStuckPrompts host found p3)))
     else []) ++
    [EvSaveReport (value r); EvLog (LogSummary (summary (value r)));
     EvLog LogReportSaved].
Proof.
  intros p1 p2 p3 found r. unfold r, generateMonitoringReport.
  rewrite !events_bind, !value_bind.
  change (final (log LogGenerating p)) with p. fold p1. fold p2. fold p3.
  fold found.
  by destruct (0 <? length found).
Qed.

(** What a full run sends: nothing, or one alert that lists every
    session detected as stuck. *)
Lemma notifications_report p :
  let r := generateMonitoringReport host p in
  notifications (events r) =
    (if (0 <? length (stuckSessions (value r))) &&
        existsSync host (emailScript host) then 1 else 0) ∧
  (notifications (events r) = 1 →
   ∃ dir out, EvExec dir (emailCmd host (stuckSessions (value r))) out ∈ events r).
Proof.
  intros r.
  destruct (report_fields p) as (_ & _ & Hstuck & _). fold r in Hstuck.
  pose proof (events_report p) as Hev. cbv zeta in Hev. fold r in Hev.
  rewrite Hev, Hstuck. clear Hev Hstuck.
  set (p1 := final (runMCPMonitoring host "detailed" p)).
  set (p2 := final (checkGitProgress host p1)).
  set (found := value (detectStuckPrompts host p2)).
  set (p3 := final (detectStuckPrompts host p2)).
  rewrite !notifications_app.
  rewrite notifications_runMCP, notifications_checkGit, notifications_detect.
  destruct (0 <? length found) eqn:Hfound.
  2:{ split; [done|]. intros Hone. discriminate Hone. }
  rewrite notifications_app, notifications_autoFix, events_alert.
  apply Nat.ltb_lt in Hfound.
  destruct (length found =? 0) eqn:Hzero.
  { apply Nat.eqb_eq in Hzero. lia. }
  destruct (existsSync host (emailScript host)).
  2:{ split; [done|]. intros Hone. discriminate Hone. }
  split; [done|]. intros _.
  eexists _, _.
  do 4 (apply elem_of_app; right).
  apply elem_of_app; left.
  apply elem_of_app; right.
  right. left.
Qed.

(** What each mode sends. *)
Lemma notifications_main (args : list string) p :
  notifications (events (main host args p)) =
  if String.eqb (modeOf args) "quick" || String.eqb (modeOf args) "git" ||
     String.eqb (modeOf args) "stuck"
  then 0 else notifications (events (generateMonitoringReport host p)).
Proof.
  unfold main. cbv zeta.
  destruct (String.eqb (modeOf args) "quick").
  { by rewrite events_bind, notifications_app, notifications_runMCP. }
  destruct (String.eqb (modeOf args) "git").
  { by rewrite events_bind, notifications_app, notifications_checkGit. }
  destruct (String.eqb (modeOf args) "stuck").
  { rewrite !events_bind, !notifications_app, notifications_detect.
    by destruct (value (detectStuckPrompts host p)). }
  simpl orb. cbv iota.
  rewrite events_bind, notifications_app. apply Nat.add_0_r.
Qed.

(** C2, as the code has it.  Whatever the mode, a run invokes the
    notifier at most once, and only in a full run in which sessions
    were detected as stuck.  Recovery does not cancel the alert: a full
    run sends it exactly when sessions were detected and the mail script
    is installed, whether or not recovery resolved them, and that one
    alert lists every session detected. *)
Theorem alert_once_when_detected (args : list string) p :
  let run := main host args p in
  let full := generateMonitoringReport host p in
  notifications (events run) ≤ 1 ∧
  (notifications (events run) = 1 →
   modeOf args ≠ "quick" ∧ modeOf args ≠ "git" ∧ modeOf args ≠ "stuck" ∧
   stuckSessions (value full) ≠ [] ∧
   ∃ dir out,
     EvExec dir (emailCmd host (stuckSessions (value full))) out ∈ events run) ∧
  (modeOf args ≠ "quick" → modeOf args ≠ "git" → modeOf args ≠ "stuck" →
   events run = events full ∧
   (notifications (events run) = 1 ↔
    stuckSessions (value full) ≠ [] ∧ existsSync host (emailScript host) = true)).
Proof.
  intros run full.
  destruct (notifications_report p) as [Hcount Hsent].
  fold full in Hcount, Hsent.
  pose proof (notifications_main args p) as Hmain. fold run full in Hmain.
  assert (modeOf args ≠ "quick" → modeOf args ≠ "git" → modeOf args ≠ "stuck" →
          events run = events full) as Hfull.
  { intros Hq Hg Hs. unfold run, main. cbv zeta.
    apply String.eqb_neq in Hq, Hg, Hs. rewrite Hq, Hg, Hs.
    rewrite events_bind. apply app_nil_r. }
  split; [|split].
  - rewrite Hmain, Hcount.
    destruct (_ || _); [lia|]. destruct (_ && _); lia.
  - intros Hone. rewrite Hmain in Hone.
    destruct (String.eqb (modeOf args) "quick") eqn:Hq; [discriminate Hone|].
    destruct (String.eqb (modeOf args) "git") eqn:Hg; [discriminate Hone|].
    destruct (String.eqb (modeOf args) "stuck") eqn:Hs; [discriminate Hone|].
    simpl orb in Hone. cbv iota in Hone.
    apply String.eqb_neq in Hq, Hg, Hs.
    split; [done|]. split; [done|]. split; [done|]. split.
    + rewrite Hcount in Hone.
      destruct (stuckSessions (value full)); [discriminate Hone|done].
    + rewrite (Hfull Hq Hg Hs). by apply Hsent.
  - intros Hq Hg Hs. split; [by apply Hfull|].
    rewrite (Hfull Hq Hg Hs), Hcount.
    destruct (stuckSessions (value full)) as [|stuck rest]; simpl.
    + split; [done|]. by intros [? _].
    + destruct (existsSync host (emailScript host)); simpl.
      * done.
      * split; [done|]. by intros [_ ?].
Qed.

End Properties.

(** * The properties on concrete runs *)

Section Runs.
Import Scenario.

(** C1: a run with no stuck session and a successful oracle, in which
    the one tracked project could not be inspected, is labelled
    [excellent]. *)
Lemma git_error_yet_excellent :
  let r := value (generateMonitoringReport fileHost (start fileWorld)) in
  stuckSessions r = [] ∧
  success (mcp r) = true ∧
  gitProgress r !! "web"
    = Some (GitError "ENOTDIR: not a directory, chdir '/srv/web'") ∧
  overallHealth (summary r) = excellent.
Proof. by vm_compute. Qed.

Lemma health_from_detection_and_oracle_run :
  overallHealth (summary (value (generateMonitoringReport devHost (start devWorld))))
  = needs_attention.
Proof.
  destruct (health_from_detection_and_oracle devHost (start devWorld))
    as (_ & Hother & _).
  apply Hother. by vm_compute.
Defined.

(** C2: the only stalled session answers the second fallback input, so
    that no session is left stuck, and the alert is sent all the
    same. *)
Lemma alert_after_full_recovery :
  let r := generateMonitoringReport devHost (start devWorld) in
  stuckSessions (value r) = [devStuck] ∧
  attempts (events r) = 2 ∧
  reportedFixed (events r) "dev" = true ∧
  unresolved (events r) (stuckSessions (value r)) = [] ∧
  notifications (events r) = 1.
Proof. by vm_compute. Qed.

Lemma alert_once_when_detected_run :
  notifications (events (main devHost [] (start devWorld))) = 1.
Proof.
  destruct (alert_once_when_detected devHost [] (start devWorld))
    as (_ & _ & Hfull).
  destruct Hfull as [_ Hiff]; [discriminate..|].
  apply Hiff. split; by vm_compute.
Defined.

(** C3: of two tracked projects the one whose path is missing has no
    entry in the report, which counts one project checked. *)
Lemma missing_path_has_no_entry :
  let r := value (generateMonitoringReport twoHost (start twoWorld)) in
  projectPaths twoHost = [("good", "/srv/good"); ("gone", "/srv/gone")] ∧
  gitProgress r !! "good"
    = Some (GitInfo "/srv/good" (Some ["9fceb02"; "Ann"; "2 days ago"; "Initial import"])
              0 "main" (Some "2 days ago")) ∧
  gitProgress r !! "gone" = None ∧
  projectsChecked (summary r) = 1.
Proof. by vm_compute. Qed.

Lemma git_entries_exactly_existing_run :
  gitProgress (value (generateMonitoringReport twoHost (start twoWorld))) !! "gone"
  = None.
Proof.
  assert (NoDup (projectPaths twoHost).*1) as Hnodup.
  { apply (bool_decide_unpack _). by vm_compute. }
  destruct (git_entries_exactly_existing twoHost (start twoWorld) Hnodup)
    as (_ & _ & Hmissing & _).
  apply (Hmissing "gone" "/srv/gone").
  - right. left.
  - by vm_compute.
Defined.

(** C4 on the pattern list of the script: the screen shows the fifth and
    the ninth pattern, and the fifth is recorded. *)
Lemma first_match_wins_run :
  scanPatterns "dev" (Some "Continue? (y/n) Please confirm") stuckPatterns []
  = [{| session := "dev";
        pattern := "Continue? (y/n)";
        content := "Continue? (y/n) Please confirm" |}].
Proof.
  destruct (first_match_wins "dev" (Some "Continue? (y/n) Please confirm")
              (take 4 stuckPatterns) "Continue? (y/n)" (drop 5 stuckPatterns) [])
    as (_ & screen & Hscreen & Heq).
  - repeat constructor.
  - reflexivity.
  - assert (screen = "Continue? (y/n) Please confirm") as -> by congruence.
    exact Heq.
Defined.

(** C5: a session whose pane cannot be captured yields the very report
    of a session that is busy: it appears nowhere, and the run is
    [excellent]. *)
Lemma lost_pane_looks_healthy :
  let lost := value (generateMonitoringReport paneHost (start paneGone)) in
  let busy := value (generateMonitoringReport paneHost (start paneBusy)) in
  lost = busy ∧
  stuckSessions lost = [] ∧
  overallHealth (summary lost) = excellent ∧
  scanPatterns "dev" None stuckPatterns []
    = scanPatterns "dev" (Some "Compiling module 3 of 7") stuckPatterns [].
Proof. by vm_compute. Qed.

Lemma no_capture_not_stuck_run :
  value (scanSessions paneHost ["dev: 1 windows"; "ops: 2 windows"] []
           (start paneGone))
  = value (scanSessions paneHost ["ops: 2 windows"] []
             (final (exec paneHost (capturePaneCmd "dev") (start paneGone)))).
Proof.
  destruct (no_capture_not_stuck paneHost "dev" stuckPatterns [])
    as (_ & _ & Hskip).
  apply (Hskip "dev: 1 windows" ["ops: 2 windows"] (start paneGone)).
  reflexivity.
Defined.

Lemma recovery_bounded_short_circuit_run :
  attempts (events (tryFixes paneHost devStuck fixes (start fixWorld))) ≤ 5 ∧
  attempts [EvLog (LogFixed "dev" "yes")] = 0.
Proof.
  destruct (recovery_bounded_short_circuit paneHost devStuck (start fixWorld))
    as (Hfive & Hbound & _ & Hstop).
  split; [by rewrite <- Hfive|].
  apply (Hstop
           [EvExec "/" (sendKeysCmd "dev" "y") (Some "");
            EvExec "/" (capturePaneCmd "dev") (Some askScreen);
            EvExec "/" (sendKeysCmd "dev" "yes") (Some "")]
           "/" (Some "Running tests")).
  - by vm_compute.
  - reflexivity.
Defined.

(** C7: the session vanishes, the injection and the re-capture both
    fail, and the loop reports the session fixed. *)
Lemma vanished_session_reported_fixed :
  let r := autoFixStuckPrompts paneHost [devStuck] (start vanishWorld) in
  events r =
    [EvLog LogAutoFix; EvLog (LogFixing "dev");
     EvExec "/" (sendKeysCmd "dev" "y") None;
     EvExec "/" (capturePaneCmd "dev") None;
     EvLog (LogFixed "dev" "y")] ∧
  reportedFixed (events r) "dev" = true ∧
  unresolved (events r) [devStuck] = [].
Proof. by vm_compute. Qed.

Lemma lost_session_reported_fixed_run :
  events (tryFixes paneHost devStuck ["y"; "yes"] (start vanishWorld)) =
    [EvExec "/" (sendKeysCmd "dev" "y") None;
     EvExec "/" (capturePaneCmd "dev") None;
     EvLog (LogFixed "dev" "y")].
Proof.
  destruct (lost_session_reported_fixed paneHost devStuck "y" ["yes"]
              (start vanishWorld)) as (Hlost & _ & _).
  apply Hlost. reflexivity.
Defined.

(** C8: [git status] fails in the repository, and its entry carries no
    error: the pending-change count is [0]. *)
Lemma failed_status_sets_no_error :
  let r := generateMonitoringReport apiHost (start apiWorld) in
  events (checkGitProgress apiHost (start apiWorld)) =
    [EvLog LogGitChecking; EvChdir "/srv/api";
     EvExec "/srv/api" gitLogCmd (Some "4be1a77|Bo|3 hours ago|Add retry");
     EvExec "/srv/api" gitStatusCmd None;
     EvExec "/srv/api" gitBranchCmd (Some "main");
     EvLog (LogGitCommit "api" "Add retry" "3 hours ago")] ∧
  gitProgress (value r) !! "api"
    = Some (GitInfo "/srv/api" (Some ["4be1a77"; "Bo"; "3 hours ago"; "Add retry"])
              0 "main" (Some "3 hours ago")) ∧
  (entry_error <$> gitProgress (value r) !! "api") = Some None.
Proof. by vm_compute. Qed.

Lemma failed_inspection_defaults_run :
  ∃ commit branch activity,
    value (inspectProject apiHost "api" "/srv/api" ∅ (start apiWorld)) !! "api"
    = Some (GitInfo "/srv/api" commit 0 branch activity).
Proof.
  destruct (failed_inspection_defaults apiHost "api" "/srv/api") as [Hentry _].
  { discriminate. }
  destruct (Hentry ∅ (start apiWorld)) as (_ & Hstatus & _).
  - by vm_compute.
  - by vm_compute.
  - apply Hstatus.
    + reflexivity.
    + intros _. by eexists.
Defined.

(** C9: in the [stuck] mode two stalled sessions give exit status [2],
    and 256 of them give [0]; in the [git] mode the status is [0] on a
    host where a full run is labelled [needs-attention]. *)
Lemma exit_status_is_a_count :
  length (value (detectStuckPrompts paneHost (start pairWorld))) = 2 ∧
  value (main paneHost ["stuck"] (start pairWorld)) = 2 ∧
  exitStatus (value (main paneHost ["stuck"] (start pairWorld))) = 2 ∧
  length (value (detectStuckPrompts paneHost (start crowdWorld))) = 256 ∧
  exitStatus (value (main paneHost ["stuck"] (start crowdWorld))) = 0 ∧
  exitStatus (value (main bareHost ["git"] (start []))) = 0 ∧
  overallHealth (summary (value (generateMonitoringReport bareHost (start []))))
    = needs_attention ∧
  exitStatus (value (main bareHost [] (start []))) = 1.
Proof. by vm_compute. Qed.

Lemma exit_status_by_mode_run :
  exitStatus (value (main paneHost ["stuck"] (start pairWorld)))
  = length (value (detectStuckPrompts paneHost (start pairWorld))) mod 256.
Proof.
  destruct (exit_status_by_mode paneHost ["stuck"] (start pairWorld))
    as (_ & _ & Hstuck & _).
  by apply Hstuck.
Defined.

(** C10: both tracked paths exist, the last one is a regular file, and
    the phase ends in the first. *)
Lemma last_existing_path_not_entered :
  projectPaths abHost = [("a", "/srv/a"); ("b", "/srv/b")] ∧
  existsSync abHost "/srv/a" = true ∧
  existsSync abHost "/srv/b" = true ∧
  last (List.filter (existsSync abHost) (projectPaths abHost).*2) = Some "/srv/b" ∧
  cwd (final (checkGitProgress abHost (start []))) = "/srv/a".
Proof. by vm_compute. Qed.

Lemma verification_leaves_cwd_run :
  cwd (final (checkGitProgress abHost (start []))) = "/srv/a".
Proof. by rewrite (verification_leaves_cwd abHost (start [])). Defined.

End Runs.

(** * Further properties *)

(** ** Strings *)

Section Strings.
Implicit Types (s t pat sep : string) (c : ascii) (l : list string).

Lemma app_cons c s t : String c s +:+ t = String c (s +:+ t).
Proof. reflexivity. Qed.

Lemma app_empty_r s : s +:+ "" = s.
Proof. induction s as [|c s IH]; [done|]. by rewrite app_cons, IH. Qed.

Lemma app_assoc_s s t u : (s +:+ t) +:+ u = s +:+ t +:+ u.
Proof. induction s as [|c s IH]; [done|]. by rewrite !app_cons, IH. Qed.

Lemma length_app_s s t :
  String.length (s +:+ t) = String.length s + String.length t.
Proof. induction s as [|c s IH]; [done|]. rewrite app_cons. simpl. by rewrite IH. Qed.

Lemma prefix_nil s : String.prefix "" s = true.
Proof. by destruct s. Qed.

Lemma prefix_app pat s t :
  String.prefix pat s = true → String.prefix pat (s +:+ t) = true.
Proof.
  revert s. induction pat as [|c pat IH]; intros s Hp; [apply prefix_nil|].
  destruct s as [|c' s]; [done|]. rewrite app_cons. simpl in *.
  destruct (ascii_dec c c'); [|done]. by apply IH.
Qed.

Lemma prefix_refl_app pat t : String.prefix pat (pat +:+ t) = true.
Proof.
  induction pat as [|c pat IH]; [apply prefix_nil|]. rewrite app_cons. simpl.
  by destruct (ascii_dec c c).
Qed.

Lemma includes_app_l s t pat :
  Js.includes s pat = true → Js.includes (s +:+ t) pat = true.
Proof.
  induction s as [|c s IH]; intros H; simpl in H.
  - rewrite orb_false_r in H. destruct pat; [|done].
    change ("" +:+ t) with t. by destruct t.
  - apply orb_true_iff in H as [Hp|Hin]; rewrite app_cons;
      cbn [Js.includes]; apply orb_true_iff.
    + left. apply (prefix_app pat (String c s) t) in Hp.
      by rewrite app_cons in Hp.
    + right. by apply IH.
Qed.

Lemma includes_app_r s t pat :
  Js.includes t pat = true → Js.includes (s +:+ t) pat = true.
Proof.
  intros Hin. induction s as [|c s IH]; [done|].
  rewrite app_cons. cbn [Js.includes]. apply orb_true_iff. by right.
Qed.

Lemma includes_self_app pat t : Js.includes (pat +:+ t) pat = true.
Proof.
  pose proof (prefix_refl_app pat t) as Hp.
  destruct (pat +:+ t); cbn [Js.includes]; by rewrite Hp.
Qed.

Lemma includes_refl pat : Js.includes pat pat = true.
Proof.
  pose proof (includes_self_app pat "") as H. by rewrite app_empty_r in H.
Qed.

Lemma includes_join sep l x pat :
  x ∈ l → Js.includes x pat = true → Js.includes (Js.join sep l) pat = true.
Proof.
  intros Hin Hx. induction l as [|y l IH]; [by apply elem_of_nil in Hin|].
  apply elem_of_cons in Hin as [->|Hin].
  - destruct l as [|z l]; simpl; [done|]. by apply includes_app_l.
  - destruct l as [|z l]; [by apply elem_of_nil in Hin|].
    change (Js.join sep (y :: z :: l)) with (y +:+ sep +:+ Js.join sep (z :: l)).
    by apply includes_app_r, includes_app_r, IH.
Qed.

Lemma split_nonempty (sep : ascii) s : Js.split sep s ≠ [].
Proof.
  destruct s as [|c s]; simpl; [done|].
  destruct (Ascii.eqb c sep); [done|]. by destruct (Js.split sep s).
Qed.

(** Joining what was split gives the string back. *)
Lemma join_split (sep : ascii) s : Js.join (String sep "") (Js.split sep s) = s.
Proof.
  induction s as [|c s IH]; [done|]. simpl.
  destruct (Ascii.eqb c sep) eqn:Hc.
  - apply Ascii.eqb_eq in Hc as ->.
    pose proof (split_nonempty sep s).
    destruct (Js.split sep s) as [|w ws]; [done|].
    change (Js.join (String sep "") ("" :: w :: ws))
      with ("" +:+ String sep "" +:+ Js.join (String sep "") (w :: ws)).
    by rewrite IH.
  - pose proof (split_nonempty sep s).
    destruct (Js.split sep s) as [|w ws]; [done|].
    destruct ws as [|w' ws].
    + simpl in *. by rewrite IH.
    + change (Js.join (String sep "") (String c w :: w' :: ws))
        with (String c w +:+ String sep "" +:+ Js.join (String sep "") (w' :: ws)).
      rewrite app_cons. f_equal. exact IH.
Qed.

(** The pieces of a split never contain the separator. *)
Lemma split_no_sep (sep : ascii) s (w : string) :
  w ∈ Js.split sep s → Js.includes w (String sep "") = false.
Proof.
  revert w. induction s as [|c s IH]; intros w; simpl.
  { intros ->%list_elem_of_singleton. done. }
  destruct (Ascii.eqb c sep) eqn:Hc.
  - intros [->|Hin]%elem_of_cons; [done|by apply IH].
  - pose proof (split_nonempty sep s).
    destruct (Js.split sep s) as [|v vs]; [done|].
    intros [->|Hin]%elem_of_cons.
    + simpl. destruct (ascii_dec sep c) as [->|_].
      { by rewrite Ascii.eqb_refl in Hc. }
      simpl. apply IH. by left.
    + apply IH. by right.
Qed.

Lemma length_split (sep : ascii) s : length (Js.split sep s) = S (countChar sep s).
Proof.
  induction s as [|c s IH]; [done|]. simpl.
  destruct (Ascii.eqb c sep); simpl; [by rewrite IH|].
  pose proof (split_nonempty sep s).
  destruct (Js.split sep s) as [|w ws]; [done|]. exact IH.
Qed.

End Strings.

(** ** The monitoring script, phase by phase *)

Section Phases.
Context {W : Type} (host : Host W).
Implicit Types (p : Proc W) (t : list Event).

Lemma commandsOf_app t1 t2 : commandsOf (t1 ++ t2) = commandsOf t1 ++ commandsOf t2.
Proof. apply omap_app. Qed.

Lemma savedReports_app t1 t2 :
  savedReports (t1 ++ t2) = savedReports t1 ++ savedReports t2.
Proof. apply omap_app. Qed.

Lemma final_log (m : LogMsg) p : final (log m p) = p.
Proof. reflexivity. Qed.

Lemma final_ret {A} (a : A) p : final (ret a p) = p.
Proof. reflexivity. Qed.

(** *** The status oracle *)

(** X1.  The oracle succeeds exactly when its script is installed and
    prints something other than white space, that is, something that
    [trim] does not empty; a missing script is reported without
    starting any process, and no run starts more than the one [python3]
    command, in the directory the process is in. *)
Theorem oracle_outcome (mode : string) p :
  let command :=
    "python3 " +:+ mcpScript +:+ (if String.eqb mode "quick" then " --quick" else "") in
  let r := runMCPMonitoring host mode p in
  (success (value r) = true ↔
   existsSync host mcpScript = true ∧
   Js.truthy (value (exec host command p)) = true) ∧
  (Js.truthy (value (exec host command p)) = true ↔
   ∃ out, (execSync host (cwd p) command (world p)).1 = Some out ∧
          Js.trim out ≠ "") ∧
  (existsSync host mcpScript = false →
   value r = McpErr "MCP script not found" ∧ commandsOf (events r) = [] ∧
   final r = p) ∧
  (existsSync host mcpScript = true →
   commandsOf (events r) = [(cwd p, command)] ∧
   (Js.truthy (value (exec host command p)) = false →
    value r = McpErr "No data returned")) ∧
  cwd (final r) = cwd p.
Proof.
  intros command r.
  assert (Js.truthy (value (exec host command p)) = true ↔
          ∃ out, (execSync host (cwd p) command (world p)).1 = Some out ∧
                 Js.trim out ≠ "") as Hprinted.
  { unfold exec, value. cbn [fst].
    destruct (execSync host (cwd p) command (world p)).1 as [out|]; simpl.
    - destruct (Js.trim out) as [|c t] eqn:Htrim.
      + split; [done|]. intros (out' & [= <-] & Hne). by rewrite Htrim in Hne.
      + split; [|done]. intros _. exists out. by rewrite Htrim.
    - split; [done|]. by intros (out & ? & _). }
  cut ((success (value r) = true ↔
        existsSync host mcpScript = true ∧
        Js.truthy (value (exec host command p)) = true) ∧
       (existsSync host mcpScript = false →
        value r = McpErr "MCP script not found" ∧ commandsOf (events r) = [] ∧
        final r = p) ∧
       (existsSync host mcpScript = true →
        commandsOf (events r) = [(cwd p, command)] ∧
        (Js.truthy (value (exec host command p)) = false →
         value r = McpErr "No data returned")) ∧
       cwd (final r) = cwd p).
  { intros (? & ? & ? & ?). done. }
  clear Hprinted. unfold r, runMCPMonitoring.
  destruct (existsSync host mcpScript); simpl negb; cbv iota.
  2:{ repeat split; try done. by intros [? _]. }
  assert ((if String.eqb mode "quick"
           then "python3 " +:+ mcpScript +:+ " --quick"
           else "python3 " +:+ mcpScript) = command) as ->.
  { unfold command. by destruct (String.eqb mode "quick"). }
  rewrite !value_bind, !events_bind, !final_bind, !final_log.
  destruct (Js.truthy (value (exec host command p))) eqn:Hout.
  - repeat split; try done.
  - repeat split; try done. by intros [_ ?].
Qed.

(** *** Ground-truth verification *)

Lemma commands_inspectProject (name path : string)
    (acc : gmap string GitEntry) p :
  commandsOf (events (inspectProject host name path acc p)) =
  if entered host path then gitCommandsIn path else [].
Proof.
  unfold inspectProject, entered.
  destruct (existsSync host path); [|done].
  destruct (chdirError host path) as [msg|]; [done|].
  rewrite !events_bind, !commandsOf_app.
  destruct (Js.truthy _); [|done]. by destruct (_ !! 3).
Qed.

Lemma commands_inspectAll (entries : list (string * string))
    (acc : gmap string GitEntry) p :
  commandsOf (events (inspectAll host entries acc p)) =
  List.filter (entered host) entries.*2 ≫= gitCommandsIn.
Proof.
  revert acc p. induction entries as [|[name path] entries IH]; intros acc p.
  { done. }
  cbn [inspectAll]. rewrite events_bind, commandsOf_app, IH.
  rewrite commands_inspectProject. simpl.
  by destruct (entered host path).
Qed.

(** X2.  The verification phase runs the three read-only git commands,
    in this order, for every registry path that exists and can be
    entered, each in that project's directory and in registry order;
    it runs nothing else, whatever the commands return. *)
Theorem verification_commands p :
  commandsOf (events (checkGitProgress host p)) =
  List.filter (entered host) (projectPaths host).*2 ≫= gitCommandsIn.
Proof.
  unfold checkGitProgress. rewrite events_bind, commandsOf_app.
  apply commands_inspectAll.
Qed.

(** X3.  The entry of a project whose path exists, and whose name is an
    ordinary property key, carries an error in two cases only.  When the
    directory cannot be entered the error is the message of [chdir], no
    command is run and the process stays where it was.  When the commit
    line is there but has fewer than four fields the error is that of
    [substring], although all three inspections ran.  In every other
    case the entry has no error.  Under the name [__proto__] nothing is
    stored. *)
Theorem inspection_error_cases (name path : string)
    (acc : gmap string GitEntry) p :
  existsSync host path = true →
  let r := inspectProject host name path acc p in
  let commit := value (exec host gitLogCmd (Build_Proc path (world p))) in
  let short :=
    Js.truthy commit = true ∧ Js.split "|"%char (default "" commit) !! 3 = None in
  (∀ msg, chdirError host path = Some msg →
     (name ≠ "__proto__" → value r !! name = Some (GitError msg)) ∧
     commandsOf (events r) = [] ∧ final r = p) ∧
  (chdirError host path = None → short →
     (name ≠ "__proto__" → value r !! name = Some (GitError substringTypeError)) ∧
     commandsOf (events r) = gitCommandsIn path) ∧
  (chdirError host path = None → ¬ short → name ≠ "__proto__" →
     entry_error <$> value r !! name = Some None) ∧
  (name = "__proto__" → value r = acc).
Proof.
  intros Hex r commit short. unfold r.
  split; [|split; [|split]].
  - intros msg Hcd. unfold inspectProject. rewrite Hex, Hcd.
    rewrite value_bind, value_ret. split; [|done].
    intros Hname. by rewrite lookup_assign_eq.
  - intros Hcd [Htruthy Hshort].
    rewrite commands_inspectProject. unfold entered.
    rewrite Hex, Hcd. split; [|done].
    intros Hname.
    unfold inspectProject. rewrite Hex, Hcd, !value_bind.
    change (value (exec host gitLogCmd (final (process_chdir path p))))
      with commit.
    rewrite Htruthy, Hshort.
    by rewrite value_bind, value_ret, lookup_assign_eq.
  - intros Hcd Hnot Hname.
    rewrite (value_inspectProject_entered host name path acc p Hex Hcd).
    + by rewrite lookup_assign_eq.
    + intros Htruthy. fold commit in Htruthy |- *.
      destruct (Js.split "|"%char (default "" commit) !! 3) eqn:Hfield; [done|].
      destruct Hnot. by split.
  - intros ->. apply value_inspectProject_proto.
Qed.

(** *** Stall detection *)

Lemma scanPatterns_cases (sessionName : string) (screenContent : option string)
    (patterns : list string) (acc : list StuckSession) :
  scanPatterns sessionName screenContent patterns acc = acc ∨
  ∃ q, q ∈ patterns ∧ Js.shows screenContent q = true ∧
       scanPatterns sessionName screenContent patterns acc
       = acc ++ [stuckEntry sessionName q screenContent].
Proof.
  induction patterns as [|q patterns IH]; simpl; [by left|].
  destruct (Js.shows screenContent q) eqn:Hq.
  - right. exists q. split; [by left|done].
  - destruct IH as [->|(q' & Hin & Hshows & ->)]; [by left|].
    right. exists q'. split; [by right|done].
Qed.

Lemma sessionNameOf_no_colon (line : string) :
  countChar ":" (sessionNameOf line) = 0.
Proof.
  unfold sessionNameOf.
  induction line as [|c line IH]; [done|]. simpl.
  destruct (Ascii.eqb c ":") eqn:Hc; [done|].
  pose proof (split_nonempty ":" line).
  destruct (Js.split ":" line) as [|w ws]; [done|].
  simpl in *. by rewrite Hc, IH.
Qed.

Lemma scanSessions_sound (lines : list string) (acc : list StuckSession) p :
  let found := value (scanSessions host lines acc p) in
  length found ≤ length acc + length lines ∧
  ∀ stuck, stuck ∈ found →
    stuck ∈ acc ∨
    (pattern stuck ∈ stuckPatterns ∧
     ∃ line, line ∈ lines ∧ session stuck = sessionNameOf line).
Proof.
  revert acc p. induction lines as [|line lines IH]; intros acc p found;
    unfold found.
  { change (value (scanSessions host [] acc p)) with acc.
    split; [simpl; lia|]. intros stuck Hin. by left. }
  cbn [scanSessions]. rewrite value_bind.
  set (screen := value (exec host _ p)).
  set (p1 := final (exec host _ p)).
  fold (sessionNameOf line).
  destruct (IH (scanPatterns (sessionNameOf line) screen stuckPatterns acc) p1)
    as [Hlen Hsound].
  destruct (scanPatterns_cases (sessionNameOf line) screen stuckPatterns acc)
    as [Heq|(q & Hq & Hshows & Heq)]; rewrite Heq in Hlen, Hsound |- *.
  - split; [simpl; lia|]. intros stuck Hin.
    destruct (Hsound stuck Hin) as [?|(? & l & Hl & ?)]; [by left|].
    right. split; [done|]. exists l. split; [by right|done].
  - split; [rewrite length_app in Hlen; simpl in *; lia|].
    intros stuck Hin.
    destruct (Hsound stuck Hin) as [Hacc|(? & l & Hl & ?)].
    + apply elem_of_app in Hacc as [?|Hnew]; [by left|].
      apply list_elem_of_singleton in Hnew as ->.
      right. split; [done|]. exists line. split; [by left|done].
    + right. split; [done|]. exists l. split; [by right|done].
Qed.

Lemma value_detect p :
  let listing := value (exec host listSessionsCmd p) in
  let found :=
    value (scanSessions host (Js.split "010"%char (default "" listing)) []
             (final (exec host listSessionsCmd p))) in
  value (detectStuckPrompts host p) =
  if Js.truthy listing then found else [].
Proof.
  intros listing found. unfold detectStuckPrompts.
  rewrite !value_bind, final_log. fold listing.
  destruct (Js.truthy listing); [|done].
  rewrite !value_bind. fold found.
  destruct (0 <? length found) eqn:Hlen.
  - by rewrite !value_bind.
  - rewrite !value_bind, value_ret.
    apply Nat.ltb_ge in Hlen. destruct found; [done|simpl in Hlen; lia].
Qed.

(** X4.  Detection reports no more sessions than [tmux list-sessions]
    printed lines, and every session it reports is one of the listed
    ones, named by the text before the first colon of its line, with
    one of the ten stall patterns; when the listing fails or is empty
    it reports none. *)
Theorem detection_sound p :
  let listing := value (exec host listSessionsCmd p) in
  let lines := Js.split "010"%char (default "" listing) in
  let found := value (detectStuckPrompts host p) in
  length found ≤ length lines ∧
  (∀ stuck, stuck ∈ found →
     pattern stuck ∈ stuckPatterns ∧
     countChar ":" (session stuck) = 0 ∧
     ∃ line, line ∈ lines ∧ session stuck = sessionNameOf line) ∧
  (Js.truthy listing = false → found = []).
Proof.
  intros listing lines found. unfold found. rewrite value_detect.
  fold listing. fold lines.
  destruct (Js.truthy listing).
  2:{ split; [simpl; lia|]. split; [|done]. intros stuck Hin.
      by apply elem_of_nil in Hin. }
  destruct (scanSessions_sound lines [] (final (exec host listSessionsCmd p)))
    as [Hlen Hsound].
  split; [done|]. split; [|done].
  intros stuck Hin.
  destruct (Hsound stuck Hin) as [Hnil|(Hpat & line & Hline & Hname)].
  { by apply elem_of_nil in Hnil. }
  split; [done|]. split; [|by exists line].
  rewrite Hname. apply sessionNameOf_no_colon.
Qed.

Lemma scanSessions_effects (lines : list string) (acc : list StuckSession) p :
  commandsOf (events (scanSessions host lines acc p)) =
    (λ line, (cwd p, capturePaneCmd (sessionNameOf line))) <$> lines ∧
  attempts (events (scanSessions host lines acc p)) = 0 ∧
  cwd (final (scanSessions host lines acc p)) = cwd p.
Proof.
  revert acc p. induction lines as [|line lines IH]; intros acc p; [done|].
  cbn [scanSessions].
  rewrite events_bind, final_bind, commandsOf_app, attempts_app.
  destruct (IH (scanPatterns (sessionNameOf line)
                  (value (exec host (capturePaneCmd (sessionNameOf line)) p))
                  stuckPatterns acc)
               (final (exec host (capturePaneCmd (sessionNameOf line)) p)))
    as (Hc & Ha & Hd).
  fold (sessionNameOf line).
  rewrite Hc, Ha, Hd. done.
Qed.

Lemma logStuck_effects (stuckSessions : list StuckSession) p :
  commandsOf (events (logStuck stuckSessions p)) = [] ∧
  attempts (events (logStuck stuckSessions p)) = 0 ∧
  final (logStuck stuckSessions p) = p.
Proof.
  revert p. induction stuckSessions as [|s rest IH]; intros p; [done|].
  cbn [logStuck].
  rewrite !events_bind, !final_bind, !commandsOf_app, !attempts_app, !final_log.
  by destruct (IH p) as (-> & -> & ->).
Qed.

Lemma detect_effects p :
  let listing := value (exec host listSessionsCmd p) in
  let r := detectStuckPrompts host p in
  commandsOf (events r) =
    (cwd p, listSessionsCmd) ::
    (if Js.truthy listing
     then (λ line, (cwd p, capturePaneCmd (sessionNameOf line)))
            <$> Js.split "010"%char (default "" listing)
     else []) ∧
  attempts (events r) = 0 ∧
  cwd (final r) = cwd p.
Proof.
  intros listing r. unfold r, detectStuckPrompts.
  rewrite !events_bind, !final_bind, !commandsOf_app, !attempts_app, ?final_log.
  rewrite ?value_bind, ?final_log. fold listing.
  destruct (Js.truthy listing); [|done].
  rewrite !events_bind, !final_bind, !commandsOf_app, !attempts_app.
  destruct (scanSessions_effects (Js.split "010"%char (default "" listing)) []
              (final (exec host listSessionsCmd p))) as (Hc & Ha & Hd).
  rewrite Hc, Ha.
  destruct (0 <? _).
  - rewrite !events_bind, !final_bind, !commandsOf_app, !attempts_app, ?final_log.
    match goal with
    | |- context [logStuck ?ss ?q] =>
        destruct (logStuck_effects ss q) as (-> & -> & ->)
    end.
    rewrite ?final_ret, Hd. simpl. by rewrite app_nil_r.
  - rewrite !events_bind, !final_bind, !commandsOf_app, !attempts_app, ?final_log.
    rewrite ?final_ret, Hd. simpl. by rewrite app_nil_r.
Qed.

(** X5.  Detection only looks: it runs [tmux list-sessions] and then,
    when that printed something, one [capture-pane] for every line of
    the listing in order, and nothing else; it injects no key and
    leaves the working directory alone. *)
Theorem detection_only_looks p :
  let listing := value (exec host listSessionsCmd p) in
  let r := detectStuckPrompts host p in
  commandsOf (events r) =
    (cwd p, listSessionsCmd) ::
    (if Js.truthy listing
     then (λ line, (cwd p, capturePaneCmd (sessionNameOf line)))
            <$> Js.split "010"%char (default "" listing)
     else []) ∧
  attempts (events r) = 0 ∧
  cwd (final r) = cwd p.
Proof. apply detect_effects. Qed.

Lemma countChar_app (c : ascii) (s t : string) :
  countChar c (s +:+ t) = countChar c s + countChar c t.
Proof.
  induction s as [|d s IH]; [done|]. rewrite app_cons. simpl. rewrite IH. lia.
Qed.

Lemma split_pieces (sep : ascii) (s : string) :
  Forall (λ w, countChar sep w = 0) (Js.split sep s).
Proof.
  induction s as [|c s IH]; simpl; [by repeat constructor|].
  destruct (Ascii.eqb c sep) eqn:Hc; [by constructor|].
  pose proof (split_nonempty sep s).
  destruct (Js.split sep s) as [|w ws]; [done|].
  apply Forall_cons in IH as [Hw Hws].
  constructor; [|done]. simpl. by rewrite Hc, Hw.
Qed.

Lemma countChar_join (sep : ascii) (l : list string) :
  Forall (λ w, countChar sep w = 0) l →
  countChar sep (Js.join (String sep "") l) = length l - 1.
Proof.
  induction 1 as [|w l Hw Hl IH]; [done|].
  destruct l as [|w' l]; [simpl; lia|].
  change (Js.join (String sep "") (w :: w' :: l))
    with (w +:+ String sep "" +:+ Js.join (String sep "") (w' :: l)).
  rewrite !countChar_app, Hw, IH. simpl. rewrite Ascii.eqb_refl. lia.
Qed.

Lemma join_drop (sep : string) (l : list string) (k : nat) :
  ∃ before, Js.join sep l = before +:+ Js.join sep (drop k l).
Proof.
  revert l. induction k as [|k IH]; intros l; [by exists ""|].
  destruct l as [|x l]; [by exists ""|].
  destruct (IH l) as [before Hbefore]. simpl drop.
  destruct l as [|y l].
  - rewrite drop_nil. exists x. by rewrite app_empty_r.
  - exists (x +:+ sep +:+ before).
    change (Js.join sep (x :: y :: l)) with (x +:+ sep +:+ Js.join sep (y :: l)).
    by rewrite Hbefore, !app_assoc_s.
Qed.

(** X6.  The context kept with a stuck session is the tail of the
    captured screen: the screen ends with it, it has at most five
    lines, and it is the whole screen when the screen has at most
    five. *)
Theorem stuck_content_is_tail (sessionName pattern screen : string) :
  let shown := content (stuckEntry sessionName pattern (Some screen)) in
  (∃ before, screen = before +:+ shown) ∧
  countChar "010" shown ≤ 4 ∧
  (countChar "010" screen ≤ 4 → shown = screen).
Proof.
  intros shown. unfold shown, stuckEntry, Js.slice_last. cbn [content].
  change (default "" (Some screen)) with screen.
  set (l := Js.split "010" screen).
  pose proof (join_split "010" screen) as Hjoin. fold l in Hjoin.
  pose proof (length_split "010" screen) as Hlen. fold l in Hlen.
  change Js.nl with (String "010"%char "").
  split; [|split].
  - destruct (join_drop (String "010"%char "") l (length l - 5)) as [before Hb].
    exists before. by rewrite <- Hb.
  - rewrite countChar_join.
    + rewrite length_drop. lia.
    + apply Forall_drop, split_pieces.
  - intros Hfew. replace (length l - 5) with 0 by lia. by rewrite drop_0.
Qed.

(** *** Recovery *)

Lemma reportedFixed_exec (dir command : string) (out : option string) t
    (sessionName : string) :
  reportedFixed (EvExec dir command out :: t) sessionName
  = reportedFixed t sessionName.
Proof. reflexivity. Qed.

Lemma attempts_attempt (dir sessionName key : string) (o1 o2 : option string) t :
  attempts (EvExec dir (sendKeysCmd sessionName key) o1
            :: EvExec dir (capturePaneCmd sessionName) o2 :: t)
  = S (attempts t).
Proof. reflexivity. Qed.

Lemma commandsOf_attempt (dir sessionName key : string) (o1 o2 : option string) t :
  commandsOf (EvExec dir (sendKeysCmd sessionName key) o1
              :: EvExec dir (capturePaneCmd sessionName) o2 :: t)
  = attemptCommands dir sessionName key ++ commandsOf t.
Proof. reflexivity. Qed.

Lemma tryFixes_order (stuck : StuckSession) (keys : list string) p :
  let t := events (tryFixes host stuck keys p) in
  commandsOf t = take (attempts t) keys ≫= attemptCommands (cwd p) (session stuck) ∧
  (keys ≠ [] → 1 ≤ attempts t) ∧
  (reportedFixed t (session stuck) = false → attempts t = length keys) ∧
  cwd (final (tryFixes host stuck keys p)) = cwd p.
Proof.
  revert p. induction keys as [|key rest IH]; intros p t; [done|].
  destruct (tryFixes_cons host stuck key rest p) as [Hev Hfin].
  unfold t. rewrite Hev, Hfin, !events_exec. clear Hev Hfin t.
  set (r1 := exec host (sendKeysCmd (session stuck) key) p).
  set (r2 := exec host (capturePaneCmd (session stuck)) (final r1)).
  destruct (noLongerShows (value r2) (pattern stuck)).
  - simpl app. cbn [attempts List.filter isSendKeys].
    split; [done|]. split; [intros _; exact (le_n 1)|]. split; [|done].
    rewrite !reportedFixed_exec. simpl.
    by rewrite String.eqb_refl.
  - destruct (IH (final r2)) as (Hc & _ & Hall & Hd).
    simpl app. rewrite attempts_attempt, commandsOf_attempt.
    split; [|split; [|split]].
    + by rewrite Hc.
    + intros _. lia.
    + rewrite !reportedFixed_exec. intros Hnot. simpl. by rewrite Hall.
    + by rewrite Hd.
Qed.

(** X7.  The recovery loop of a session sends the fallback inputs in
    their fixed order, each injection followed by one re-capture, all
    in the working directory; it always makes a first attempt, and
    unless it reports the session fixed it goes through all five
    inputs. *)
Theorem recovery_keys_in_order (stuck : StuckSession) p :
  let t := events (tryFixes host stuck fixes p) in
  commandsOf t = take (attempts t) fixes ≫= attemptCommands (cwd p) (session stuck) ∧
  1 ≤ attempts t ∧
  (reportedFixed t (session stuck) = false → attempts t = 5) ∧
  cwd (final (tryFixes host stuck fixes p)) = cwd p.
Proof.
  intros t. destruct (tryFixes_order stuck fixes p) as (Hc & Hone & Hall & Hd).
  fold t in Hc, Hone, Hall. repeat split; try done. by apply Hone.
Qed.

(** *** A full run *)

Lemma runMCP_quiet (mode : string) p :
  attempts (events (runMCPMonitoring host mode p)) = 0 ∧
  savedReports (events (runMCPMonitoring host mode p)) = [] ∧
  cwd (final (runMCPMonitoring host mode p)) = cwd p.
Proof.
  unfold runMCPMonitoring.
  destruct (existsSync host mcpScript); [|done]. simpl negb. cbv iota.
  destruct (String.eqb mode "quick");
    rewrite !events_bind, !final_bind, !attempts_app, !savedReports_app;
    by destruct (Js.truthy _).
Qed.

Lemma inspectProject_quiet (name path : string) (acc : gmap string GitEntry) p :
  attempts (events (inspectProject host name path acc p)) = 0 ∧
  savedReports (events (inspectProject host name path acc p)) = [].
Proof.
  unfold inspectProject.
  destruct (existsSync host path); [|done].
  destruct (chdirError host path); [done|].
  rewrite !events_bind, !attempts_app, !savedReports_app.
  destruct (Js.truthy _); [|done]. by destruct (_ !! 3).
Qed.

Lemma inspectAll_quiet (entries : list (string * string))
    (acc : gmap string GitEntry) p :
  attempts (events (inspectAll host entries acc p)) = 0 ∧
  savedReports (events (inspectAll host entries acc p)) = [].
Proof.
  revert acc p. induction entries as [|[name path] entries IH]; intros acc p.
  { done. }
  cbn [inspectAll]. rewrite events_bind, attempts_app, savedReports_app.
  destruct (inspectProject_quiet name path acc p) as [-> ->].
  by destruct (IH (value (inspectProject host name path acc p))
                  (final (inspectProject host name path acc p))) as [-> ->].
Qed.

Lemma checkGit_quiet p :
  attempts (events (checkGitProgress host p)) = 0 ∧
  savedReports (events (checkGitProgress host p)) = [] ∧
  cwd (final (checkGitProgress host p)) =
    default (cwd p) (last (List.filter (entered host) (projectPaths host).*2)).
Proof.
  unfold checkGitProgress.
  rewrite events_bind, final_bind, attempts_app, savedReports_app.
  destruct (inspectAll_quiet (projectPaths host) ∅ (final (log LogGitChecking p)))
    as [-> ->].
  split; [done|]. split; [done|]. apply cwd_inspectAll.
Qed.

Lemma scanSessions_saved (lines : list string) (acc : list StuckSession) p :
  savedReports (events (scanSessions host lines acc p)) = [].
Proof.
  revert acc p. induction lines as [|line lines IH]; intros acc p; [done|].
  cbn [scanSessions]. by rewrite events_bind, savedReports_app, IH.
Qed.

Lemma logStuck_saved (stuckSessions : list StuckSession) p :
  savedReports (events (logStuck stuckSessions p)) = [].
Proof.
  revert p. induction stuckSessions as [|s rest IH]; intros p; [done|].
  cbn [logStuck]. by rewrite !events_bind, !savedReports_app, IH.
Qed.

Lemma detect_saved p : savedReports (events (detectStuckPrompts host p)) = [].
Proof.
  unfold detectStuckPrompts. rewrite !events_bind, !savedReports_app.
  destruct (Js.truthy _); [|done].
  rewrite !events_bind, !savedReports_app, scanSessions_saved.
  destruct (0 <? _); [|done].
  by rewrite !events_bind, !savedReports_app, logStuck_saved.
Qed.

Lemma tryFixes_saved (stuck : StuckSession) (keys : list string) p :
  savedReports (events (tryFixes host stuck keys p)) = [].
Proof.
  revert p. induction keys as [|key rest IH]; intros p; [done|].
  destruct (tryFixes_cons host stuck key rest p) as [-> _].
  rewrite !savedReports_app. destruct (noLongerShows _ _); [done|].
  by rewrite IH.
Qed.

Lemma fixSessions_facts (stuckSessions : list StuckSession) p :
  savedReports (events (fixSessions host stuckSessions p)) = [] ∧
  cwd (final (fixSessions host stuckSessions p)) = cwd p ∧
  (stuckSessions ≠ [] → 1 ≤ attempts (events (fixSessions host stuckSessions p))).
Proof.
  revert p. induction stuckSessions as [|stuck rest IH]; intros p; [done|].
  cbn [fixSessions].
  rewrite !events_bind, !final_bind, !savedReports_app, !attempts_app, !final_log.
  destruct (tryFixes_order stuck fixes p) as (_ & Hone & _ & Hd).
  destruct (IH (final (tryFixes host stuck fixes p))) as (-> & -> & _).
  rewrite tryFixes_saved, Hd.
  split; [done|]. split; [done|]. intros _.
  assert (1 ≤ attempts (events (tryFixes host stuck fixes p))) by by apply Hone.
  lia.
Qed.

Lemma autoFix_facts (stuckSessions : list StuckSession) p :
  savedReports (events (autoFixStuckPrompts host stuckSessions p)) = [] ∧
  cwd (final (autoFixStuckPrompts host stuckSessions p)) = cwd p ∧
  (stuckSessions ≠ [] →
   1 ≤ attempts (events (autoFixStuckPrompts host stuckSessions p))) ∧
  attempts (events (autoFixStuckPrompts host stuckSessions p))
  ≤ length fixes * length stuckSessions.
Proof.
  unfold autoFixStuckPrompts.
  destruct stuckSessions as [|stuck rest]; [simpl; repeat split; try done; lia|].
  cbn [length Nat.eqb].
  rewrite events_bind, final_bind, savedReports_app, attempts_app, final_log.
  destruct (fixSessions_facts (stuck :: rest) p) as (-> & -> & Hone).
  pose proof (attempts_fixSessions host (stuck :: rest) p).
  split; [done|]. split; [done|]. split; [|done].
  intros _. by apply Hone.
Qed.

Lemma alert_facts (stuckSessions : list StuckSession) p :
  attempts (events (sendTokenWasteAlert host stuckSessions p)) = 0 ∧
  savedReports (events (sendTokenWasteAlert host stuckSessions p)) = [] ∧
  cwd (final (sendTokenWasteAlert host stuckSessions p)) = cwd p.
Proof.
  unfold sendTokenWasteAlert. destruct (_ =? 0); [done|].
  by destruct (existsSync host (emailScript host)).
Qed.

Lemma final_report p :
  let p1 := final (runMCPMonitoring host "detailed" p) in
  let p2 := final (checkGitProgress host p1) in
  let p3 := final (detectStuckPrompts host p2) in
  let found := value (detectStuckPrompts host p2) in
  final (generateMonitoringReport host p) =
  if 0 <? length found
  then final (sendTokenWasteAlert host found
                (final (autoFixStuckPrompts host found p3)))
  else p3.
Proof.
  intros p1 p2 p3 found. unfold generateMonitoringReport.
  rewrite !final_bind, ?value_bind.
  change (final (log LogGenerating p)) with p. fold p1. fold p2. fold p3.
  fold found.
  by destruct (0 <? length found).
Qed.

(** X8.  A full run ends in the directory the verification phase left
    it in, the last registry path that exists and could be entered:
    the oracle, detection, recovery and the alert do not move the
    process. *)
Theorem report_leaves_cwd p :
  cwd (final (generateMonitoringReport host p)) =
  default (cwd p) (last (List.filter (entered host) (projectPaths host).*2)).
Proof.
  rewrite final_report.
  set (p1 := final (runMCPMonitoring host "detailed" p)).
  set (p2 := final (checkGitProgress host p1)).
  set (p3 := final (detectStuckPrompts host p2)).
  set (found := value (detectStuckPrompts host p2)).
  assert (cwd p3 =
          default (cwd p) (last (List.filter (entered host) (projectPaths host).*2)))
    as Hp3.
  { unfold p3. destruct (detect_effects p2) as (_ & _ & ->).
    unfold p2. destruct (checkGit_quiet p1) as (_ & _ & ->).
    unfold p1. by destruct (runMCP_quiet "detailed" p) as (_ & _ & ->). }
  destruct (0 <? length found); [|done].
  destruct (alert_facts found (final (autoFixStuckPrompts host found p3)))
    as (_ & _ & ->).
  by destruct (autoFix_facts found p3) as (_ & -> & _).
Qed.

(** X9.  A full run injects keys only when detection found a stuck
    session: with none found it sends no key and no alert; with some
    found it makes at least one attempt and at most five per session
    found. *)
Theorem injections_only_when_detected p :
  let r := generateMonitoringReport host p in
  (stuckSessions (value r) = [] →
   attempts (events r) = 0 ∧ notifications (events r) = 0) ∧
  (stuckSessions (value r) ≠ [] →
   1 ≤ attempts (events r) ∧
   attempts (events r) ≤ 5 * length (stuckSessions (value r))).
Proof.
  intros r.
  destruct (report_fields host p) as (_ & _ & Hstuck & _). fold r in Hstuck.
  destruct (notifications_report host p) as [Hnotify _]. fold r in Hnotify.
  pose proof (events_report host p) as Hev. cbv zeta in Hev. fold r in Hev.
  rewrite Hnotify, Hev, Hstuck. clear Hnotify Hev Hstuck.
  set (p1 := final (runMCPMonitoring host "detailed" p)).
  set (p2 := final (checkGitProgress host p1)).
  set (found := value (detectStuckPrompts host p2)).
  set (p3 := final (detectStuckPrompts host p2)).
  rewrite !attempts_app.
  destruct (runMCP_quiet "detailed" p) as (-> & _ & _).
  destruct (checkGit_quiet p1) as (-> & _ & _).
  destruct (detect_effects p2) as (_ & -> & _).
  split.
  - intros ->. done.
  - intros Hfound.
    destruct found as [|stuck rest] eqn:Hf; [done|].
    cbn [length Nat.ltb Nat.leb].
    rewrite attempts_app.
    destruct (alert_facts (stuck :: rest)
                (final (autoFixStuckPrompts host (stuck :: rest) p3)))
      as (-> & _ & _).
    destruct (autoFix_facts (stuck :: rest) p3) as (_ & _ & Hone & Hmax).
    specialize (Hone Hfound).
    change (length fixes) with 5 in Hmax.
    change (attempts [EvLog LogGenerating]) with 0.
    change (attempts [EvSaveReport (value r); EvLog (LogSummary (summary (value r)));
                      EvLog LogReportSaved]) with 0.
    cbn [length] in Hmax |- *. lia.
Qed.

(** X10.  The alert names every session detected as stuck, each on a
    line of its own with the pattern it shows, and states their number;
    so does the command line that starts the mail script. *)
Theorem alert_lists_sessions (stuckSessions : list StuckSession)
    (stuck : StuckSession) :
  stuck ∈ stuckSessions →
  let line := "- **" +:+ session stuck +:+ "**: " +:+ pattern stuck in
  let count :=
    "**Detected " +:+ pretty (length stuckSessions) +:+ " stuck AI session(s)**" in
  Js.includes (alertMessage stuckSessions) line = true ∧
  Js.includes (alertMessage stuckSessions) count = true ∧
  Js.includes (emailCmd host stuckSessions) line = true ∧
  Js.includes (emailCmd host stuckSessions) count = true.
Proof.
  intros Hin line count.
  assert (Js.includes (alertMessage stuckSessions) line = true) as Hline.
  { unfold alertMessage.
    apply (includes_join _ _
             (Js.join Js.nl
                ((λ s, "- **" +:+ session s +:+ "**: " +:+ pattern s)
                   <$> stuckSessions))).
    - do 6 right. left.
    - apply (includes_join _ _ line).
      + apply list_elem_of_fmap. by exists stuck.
      + apply includes_refl. }
  assert (Js.includes (alertMessage stuckSessions) count = true) as Hcount.
  { unfold alertMessage. apply (includes_join _ _ count).
    - do 3 right. left.
    - apply includes_refl. }
  split; [done|]. split; [done|].
  split; unfold emailCmd; do 6 apply includes_app_r; by apply includes_app_l.
Qed.



Lemma saved_report p :
  savedReports (events (generateMonitoringReport host p))
  = [value (generateMonitoringReport host p)].
Proof.
  pose proof (events_report host p) as Hev. cbv zeta in Hev. rewrite Hev.
  clear Hev. rewrite !savedReports_app.
  set (p1 := final (runMCPMonitoring host "detailed" p)).
  set (p2 := final (checkGitProgress host p1)).
  set (found := value (detectStuckPrompts host p2)).
  set (p3 := final (detectStuckPrompts host p2)).
  destruct (runMCP_quiet "detailed" p) as (_ & -> & _).
  destruct (checkGit_quiet p1) as (_ & -> & _).
  rewrite detect_saved.
  destruct (0 <? length found); [|done].
  rewrite savedReports_app.
  destruct (autoFix_facts found p3) as (-> & _).
  by destruct (alert_facts found (final (autoFixStuckPrompts host found p3)))
    as (_ & -> & _).
Qed.

(** X12.  A full run writes its report once, and what it writes is what
    it returns.  In that report the summary agrees with the body: it
    counts the stuck sessions and the git entries listed, its status is
    [operational] exactly when the oracle succeeded, and health
    [excellent] comes only with no stuck prompt and status
    [operational]. *)
Theorem report_saved_once_and_consistent p :
  let r := value (generateMonitoringReport host p) in
  savedReports (events (generateMonitoringReport host p)) = [r] ∧
  stuckPrompts (summary r) = length (stuckSessions r) ∧
  projectsChecked (summary r) = size (gitProgress r) ∧
  (mcpStatus (summary r) = "operational" ↔ success (mcp r) = true) ∧
  (overallHealth (summary r) = excellent →
   stuckPrompts (summary r) = 0 ∧ mcpStatus (summary r) = "operational").
Proof.
  intros r. split; [apply saved_report|].
  destruct (report_fields host p) as (Hmcp & _ & _ & _ & Hhealth).
  fold r in Hmcp, Hhealth.
  assert (mcpStatus (summary r) =
          if success (mcp r) then "operational" else "error") as Hstatus by done.
  assert (stuckPrompts (summary r) = length (stuckSessions r)) as Hcount by done.
  split; [done|]. split; [done|]. split.
  - rewrite Hstatus. by destruct (success (mcp r)).
  - rewrite Hhealth, Hstatus, Hcount.
    destruct (length (stuckSessions r)) as [|n]; [|done].
    by destruct (success (mcp r)).
Qed.

End Phases.

(** ** The mail script *)

Section Mail.
Implicit Types (s content : string) (n : nat).

Lemma units_app s t : Js.units (s +:+ t) = Js.units s + Js.units t.
Proof.
  induction s as [|c s IH]; [done|].
  rewrite app_cons. cbn [Js.units]. rewrite IH. lia.
Qed.

Lemma unitsOf_le (c : ascii) : Js.unitsOf c ≤ 2.
Proof. destruct c as [? ? ? ? [] [] [] []]; simpl; lia. Qed.

Lemma units_highSurrogate (c : ascii) s : Js.units (Js.highSurrogate c s) = 1.
Proof. reflexivity. Qed.

Lemma continuation_not_lf (x : N) : Ascii.eqb (Js.continuation x) "010" = false.
Proof.
  unfold Js.continuation.
  by destruct (N.testbit x 0), (N.testbit x 1), (N.testbit x 2),
    (N.testbit x 3), (N.testbit x 4), (N.testbit x 5).
Qed.

Lemma substring0_units n s : Js.units (Js.substring0 n s) ≤ n.
Proof.
  revert n. induction s as [|c s IH]; intros n; cbn [Js.substring0 Js.units].
  { lia. }
  pose proof (unitsOf_le c) as Hc.
  destruct (Js.unitsOf c) as [|[|k]] eqn:Hu.
  - cbn [Js.units]. rewrite Hu. apply IH.
  - destruct n as [|n]; cbn [Js.units]; [lia|].
    rewrite Hu. specialize (IH n). lia.
  - destruct n as [|[|n]]; cbn [Js.units]; [lia| |].
    + rewrite units_highSurrogate. lia.
    + rewrite Hu. specialize (IH n). lia.
Qed.

Lemma substring0_all n s : Js.units s ≤ n → Js.substring0 n s = s.
Proof.
  revert n. induction s as [|c s IH]; intros n; cbn [Js.substring0 Js.units].
  { done. }
  destruct (Js.unitsOf c) as [|[|k]] eqn:Hu; intros Hlen.
  - f_equal. apply IH. lia.
  - destruct n as [|n]; [lia|]. f_equal. apply IH. lia.
  - destruct n as [|[|n]]; [lia..|]. f_equal. apply IH. lia.
Qed.

Lemma substring0_full n s :
  n ≤ Js.units s → Js.units (Js.substring0 n s) = n.
Proof.
  revert n. induction s as [|c s IH]; intros n; cbn [Js.substring0 Js.units].
  { lia. }
  pose proof (unitsOf_le c) as Hc.
  destruct (Js.unitsOf c) as [|[|k]] eqn:Hu; intros Hlen.
  - cbn [Js.units]. rewrite Hu. apply IH. lia.
  - destruct n as [|n]; [done|]. cbn [Js.units]. rewrite Hu, IH; lia.
  - destruct n as [|[|n]]; [done| |].
    + apply units_highSurrogate.
    + cbn [Js.units]. rewrite Hu, IH; lia.
Qed.

Lemma substring0_count n s :
  countChar "010" s = 0 → countChar "010" (Js.substring0 n s) = 0.
Proof.
  revert n. induction s as [|c s IH]; intros n; cbn [Js.substring0 countChar].
  { done. }
  destruct (Ascii.eqb c "010") eqn:Hc; [done|]. simpl. intros Hs.
  destruct (Js.unitsOf c) as [|[|k]].
  - cbn [countChar]. rewrite Hc. by apply IH.
  - destruct n as [|n]; [done|]. cbn [countChar]. rewrite Hc. by apply IH.
  - destruct n as [|[|n]]; [done| |].
    + unfold Js.highSurrogate. cbn [countChar].
      by rewrite !continuation_not_lf.
    + cbn [countChar]. rewrite Hc. by apply IH.
Qed.

Lemma head_split_count (sep : ascii) s :
  countChar sep (default "" (head (Js.split sep s))) = 0.
Proof.
  pose proof (split_pieces sep s) as Hall.
  destruct (Js.split sep s) as [|w ws]; [done|].
  by apply Forall_cons in Hall as [? _].
Qed.

(** X13.  The subject of a mail starts with ["Claude Code: "], is at
    most 66 code units long, as JavaScript counts the length of a
    string, and never contains a line feed, whatever the content. *)
Theorem subject_bounded content :
  String.prefix "Claude Code: " (Email.subject content) = true ∧
  Js.units (Email.subject content) ≤ 66 ∧
  countChar "010" (Email.subject content) = 0.
Proof.
  unfold Email.subject.
  pose proof (substring0_units 50
                (default "" (head (Js.split "010" content)))) as Hlen.
  fold (Email.firstLine content) in Hlen.
  split; [apply prefix_refl_app|]. split.
  - rewrite !units_app.
    change (Js.units "Claude Code: ") with 13.
    destruct (50 <=? _).
    + change (Js.units "...") with 3. lia.
    + change (Js.units "") with 0. lia.
  - rewrite !countChar_app. unfold Email.firstLine.
    rewrite substring0_count by apply head_split_count.
    by destruct (50 <=? _).
Qed.

(** X14.  Lengths being counted in code units, the subject shows the
    first line of the content whole when it is shorter than 50; from 50
    on it shows the first 50 code units followed by three dots, so that
    a first line of exactly 50 gets the dots although nothing was
    cut. *)
Theorem subject_ellipsis content :
  let line := default "" (head (Js.split "010"%char content)) in
  (Js.units line < 50 →
   Email.subject content = "Claude Code: " +:+ line) ∧
  (50 ≤ Js.units line →
   Email.subject content = "Claude Code: " +:+ Js.substring0 50 line +:+ "..." ∧
   Js.units (Js.substring0 50 line) = 50) ∧
  (Js.units line = 50 →
   Email.subject content = "Claude Code: " +:+ line +:+ "...").
Proof.
  intros line. unfold Email.subject, Email.firstLine. fold line.
  split; [|split].
  - intros Hshort. rewrite substring0_all by lia.
    destruct (50 <=? Js.units line) eqn:Hle.
    + apply Nat.leb_le in Hle. lia.
    + by rewrite app_empty_r.
  - intros Hlong. by rewrite substring0_full.
  - intros Hexact. rewrite substring0_all by lia. by rewrite Hexact.
Qed.

(** X15.  The token waste alert begins with an empty line, so that a
    mail whose content is that alert has the bare subject
    ["Claude Code: "], whichever sessions it lists. *)
Theorem alert_subject_is_bare (stuckSessions : list StuckSession) :
  Email.subject (alertMessage stuckSessions) = "Claude Code: ".
Proof.
  unfold alertMessage.
  match goal with
  | |- context [Js.join Js.nl ("" :: ?rest)] =>
      change (Js.join Js.nl ("" :: rest))
        with (String "010"%char (Js.join Js.nl rest))
  end.
  done.
Qed.

(** X16.  The mail script exits with status 0 exactly when it was given
    at least one argument, both Gmail credentials are set and
    non-empty, and the transport accepted the mail, whose content is
    the arguments joined by single spaces; without credentials the
    transport is not consulted. *)
Theorem mail_exit_status (GMAIL_USER GMAIL_APP_PASSWORD : option string)
    (sendMail : string → string → string + string) (args : list string) :
  (Email.main GMAIL_USER GMAIL_APP_PASSWORD sendMail args = 0 ↔
   args ≠ [] ∧ Js.truthy GMAIL_USER = true ∧ Js.truthy GMAIL_APP_PASSWORD = true ∧
   ∃ id, sendMail ("Claude Code <" +:+ default "" GMAIL_USER +:+ ">")
           (Email.subject (Js.join " " args)) = inl id) ∧
  (Email.main GMAIL_USER GMAIL_APP_PASSWORD sendMail args = 0 ∨
   Email.main GMAIL_USER GMAIL_APP_PASSWORD sendMail args = 1) ∧
  (Js.truthy GMAIL_USER = false ∨ Js.truthy GMAIL_APP_PASSWORD = false →
   ∀ content, Email.quickEmail GMAIL_USER GMAIL_APP_PASSWORD sendMail content
              = inr Email.missingCredentials).
Proof.
  unfold Email.main, Email.quickEmail.
  split; [|split].
  - destruct args as [|arg args]; simpl length; simpl (_ =? _).
    { split; [done|]. by intros [? _]. }
    destruct (Js.truthy GMAIL_USER), (Js.truthy GMAIL_APP_PASSWORD); simpl;
      try (split; [done|]; by intros (_ & ? & ? & _)).
    destruct (sendMail _ _) as [id|msg].
    + split; [|done]. intros _. repeat split; try done. by exists id.
    + split; [done|]. by intros (_ & _ & _ & id & ?).
  - destruct (length args =? 0); [by right|].
    destruct (negb _ || negb _); [by right|].
    destruct (sendMail _ _); [by left|by right].
  - intros [-> | ->] content; [done|]. by rewrite orb_true_r.
Qed.

End Mail.

(** ** The command layer *)

Section Guards.
Import Commands.
Implicit Types (arg : string) (args : list string).

Lemma stripDangerous_clean arg :
  String.length (stripDangerous arg) ≤ String.length arg ∧
  ∀ c, isDangerousChar c = true → countChar c (stripDangerous arg) = 0.
Proof.
  induction arg as [|d arg [IHlen IH]]; [done|]. simpl.
  destruct (isDangerousChar d) eqn:Hd; simpl.
  - split; [lia|done].
  - split; [lia|]. intros c Hc.
    destruct (Ascii.eqb d c) eqn:Heq.
    + apply Ascii.eqb_eq in Heq as ->. congruence.
    + by apply IH.
Qed.

Lemma stripDangerous_id arg :
  (∀ c, isDangerousChar c = true → countChar c arg = 0) ↔
  stripDangerous arg = arg.
Proof.
  split.
  - induction arg as [|d arg IH]; [done|]. intros Hclean. simpl.
    destruct (isDangerousChar d) eqn:Hd.
    + specialize (Hclean d Hd). simpl in Hclean.
      by rewrite Ascii.eqb_refl in Hclean.
    + f_equal. apply IH. intros c Hc. specialize (Hclean c Hc).
      simpl in Hclean. lia.
  - intros <-. apply stripDangerous_clean.
Qed.

(** X17.  Sanitising keeps the number of arguments and leaves in none
    of them a character of the set [; & | ` $ ( ) { }]; an argument is
    left as it is exactly when it has none of these, and sanitising
    twice changes nothing more. *)
Theorem sanitize_removes_shell_characters args :
  length (sanitizeCommandArgs args) = length args ∧
  (∀ arg c, arg ∈ sanitizeCommandArgs args → isDangerousChar c = true →
     countChar c arg = 0) ∧
  (∀ i arg, args !! i = Some arg →
     (sanitizeCommandArgs args !! i = Some arg ↔
      ∀ c, isDangerousChar c = true → countChar c arg = 0)) ∧
  sanitizeCommandArgs (sanitizeCommandArgs args) = sanitizeCommandArgs args.
Proof.
  unfold sanitizeCommandArgs. split; [apply length_fmap|]. split; [|split].
  - intros arg c Hin Hc.
    apply list_elem_of_fmap in Hin as (raw & -> & _).
    by apply stripDangerous_clean.
  - intros i arg Hi. rewrite list_lookup_fmap, Hi. simpl.
    rewrite stripDangerous_id. split; [by intros [=]|by intros ->].
  - rewrite <- list_fmap_compose. apply list_fmap_ext. intros i arg _. simpl.
    apply stripDangerous_id, stripDangerous_clean.
Qed.

Lemma existsb_dangerous (full : string) :
  existsb (λ dangerous, Js.includes full dangerous) dangerousCommands = true ↔
  ∃ dangerous, dangerous ∈ dangerousCommands ∧ Js.includes full dangerous = true.
Proof.
  rewrite existsb_exists. split; intros (d & Hin & Hd); exists d;
    (split; [by apply list_elem_of_In|done]).
Qed.

(** X18.  Validation rejects a command as soon as one of the four
    dangerous phrases occurs in the command or in any one argument;
    and a command accepted together with its arguments is accepted on
    its own. *)
Theorem validate_rejects_dangerous_phrase (command : string) args :
  (∀ dangerous, dangerous ∈ dangerousCommands →
     Js.includes command dangerous = true ∨
     (∃ arg, arg ∈ args ∧ Js.includes arg dangerous = true) →
     validateCommand command (Some args) = false) ∧
  (∀ dangerous, dangerous ∈ dangerousCommands →
     Js.includes command dangerous = true →
     validateCommand command None = false) ∧
  (validateCommand command (Some args) = true →
   validateCommand command None = true).
Proof.
  assert (∀ dangerous, dangerous ∈ dangerousCommands →
            Js.includes command dangerous = true →
            validateCommand command None = false) as Halone.
  { intros d Hd Hin. unfold validateCommand. apply negb_false_iff.
    apply existsb_dangerous. by exists d. }
  assert (∀ dangerous, dangerous ∈ dangerousCommands →
            Js.includes command dangerous = true ∨
            (∃ arg, arg ∈ args ∧ Js.includes arg dangerous = true) →
            validateCommand command (Some args) = false) as Hwith.
  { intros d Hd Hin. unfold validateCommand. apply negb_false_iff.
    apply existsb_dangerous. exists d. split; [done|]. simpl.
    destruct Hin as [Hcmd|(arg & Harg & Hin)].
    - by apply includes_app_l.
    - by apply includes_app_r, includes_app_r, (includes_join _ _ arg). }
  split; [done|]. split; [done|].
  intros Hok. destruct (validateCommand command None) eqn:Hnone; [done|].
  unfold validateCommand in Hnone. apply negb_false_iff in Hnone.
  apply existsb_dangerous in Hnone as (d & Hd & Hin).
  rewrite (Hwith d Hd) in Hok; [done|by left].
Qed.

End Guards.

Section Trim.
Implicit Types (s : string).

Lemma stripSpace_length s r :
  Js.stripSpace s = Some r → String.length r < String.length s.
Proof.
  destruct s as [|c1 [|c2 [|c3 r3]]]; simpl; try done.
  - destruct (Ascii.is_space c1); [|done]. intros [= <-]. simpl. lia.
  - destruct (Ascii.is_space c1). { intros [= <-]. simpl. lia. }
    destruct (Js.isSpace2 c1 c2); [|done]. intros [= <-]. simpl. lia.
  - destruct (Ascii.is_space c1). { intros [= <-]. simpl. lia. }
    destruct (Js.isSpace2 c1 c2). { intros [= <-]. simpl. lia. }
    destruct (Js.isSpace3 c1 c2 c3); [|done]. intros [= <-]. simpl. lia.
Qed.

Lemma stripSpace_app s r t :
  Js.stripSpace s = Some r → Js.stripSpace (s +:+ t) = Some (r +:+ t).
Proof.
  destruct s as [|c1 [|c2 [|c3 r3]]]; rewrite ?app_cons; simpl; try done.
  - destruct (Ascii.is_space c1); [|done]. by intros [= <-].
  - destruct (Ascii.is_space c1). { by intros [= <-]. }
    change ("" +:+ t) with t.
    destruct (Js.isSpace2 c1 c2); [|done]. by intros [= <-].
  - destruct (Ascii.is_space c1). { by intros [= <-]. }
    destruct (Js.isSpace2 c1 c2). { by intros [= <-]. }
    destruct (Js.isSpace3 c1 c2 c3); [|done]. by intros [= <-].
Qed.

Lemma trimStart_unfold s :
  Js.trimStart s =
  match Js.stripSpace s with
  | Some r => Js.trimStart r
  | None => s
  end.
Proof.
  destruct s as [|c1 [|c2 [|c3 r3]]]; cbn [Js.trimStart Js.stripSpace];
    try done.
  - by destruct (Ascii.is_space c1).
  - destruct (Ascii.is_space c1); [done|]. by destruct (Js.isSpace2 c1 c2).
  - destruct (Ascii.is_space c1); [done|].
    destruct (Js.isSpace2 c1 c2); [done|]. by destruct (Js.isSpace3 c1 c2 c3).
Qed.

(** Induction along the white space that [trimStart] removes. *)
Lemma trimStart_ind (P : string → Prop) :
  (∀ s, (∀ r, Js.stripSpace s = Some r → P r) → P s) → ∀ s, P s.
Proof.
  intros Hstep s.
  remember (String.length s) as n eqn:Hn. revert s Hn.
  induction (lt_wf n) as [n _ IH]. intros s ->.
  apply Hstep. intros r Hr.
  apply (IH (String.length r)); [|done]. by apply stripSpace_length.
Qed.

Lemma trimStart_length s : String.length (Js.trimStart s) ≤ String.length s.
Proof.
  induction s as [s IH] using trimStart_ind.
  rewrite trimStart_unfold.
  destruct (Js.stripSpace s) as [r|] eqn:Hr; [|done].
  specialize (IH r eq_refl). apply stripSpace_length in Hr. lia.
Qed.

Lemma trimStart_idem s : Js.trimStart (Js.trimStart s) = Js.trimStart s.
Proof.
  induction s as [s IH] using trimStart_ind.
  rewrite (trimStart_unfold s).
  destruct (Js.stripSpace s) as [r|] eqn:Hr; [by apply IH|].
  by rewrite trimStart_unfold, Hr.
Qed.

Lemma trimStart_blank_app s t :
  Js.trimStart s = "" → Js.trimStart (s +:+ t) = Js.trimStart t.
Proof.
  induction s as [s IH] using trimStart_ind.
  rewrite (trimStart_unfold s).
  destruct (Js.stripSpace s) as [r|] eqn:Hr.
  - intros Hblank. rewrite trimStart_unfold, (stripSpace_app s r t Hr).
    by apply IH.
  - by intros ->.
Qed.

Lemma isBlank_spec s : Js.isBlank s = true ↔ Js.trimStart s = "".
Proof. unfold Js.isBlank. by destruct (Js.trimStart s). Qed.

Lemma trimEnd_split s :
  ∃ blank, s = Js.trimEnd s +:+ blank ∧ Js.trimStart blank = "".
Proof.
  induction s as [|c s (blank & Hs & Hblank)]; [by exists ""|].
  cbn [Js.trimEnd].
  destruct (Js.isBlank (String c s)) eqn:Hb.
  - exists (String c s). split; [done|]. by apply isBlank_spec.
  - exists blank. split; [|done]. by rewrite app_cons, <- Hs.
Qed.

Lemma trimEnd_idem s : Js.trimEnd (Js.trimEnd s) = Js.trimEnd s.
Proof.
  induction s as [|c s IH]; [done|].
  cbn [Js.trimEnd].
  destruct (Js.isBlank (String c s)) eqn:Hb; [done|].
  cbn [Js.trimEnd]. rewrite IH.
  destruct (Js.isBlank (String c (Js.trimEnd s))) eqn:Hb'; [|done].
  destruct (trimEnd_split s) as (blank & Hs & Hblank).
  apply isBlank_spec in Hb'.
  pose proof (trimStart_blank_app _ blank Hb') as Happ.
  rewrite app_cons, <- Hs, Hblank in Happ.
  apply isBlank_spec in Happ. congruence.
Qed.

Lemma trimEnd_keeps_start s :
  Js.trimStart s = s → Js.trimStart (Js.trimEnd s) = Js.trimEnd s.
Proof.
  intros Hfixed.
  assert (Js.stripSpace s = None) as Hnone.
  { destruct (Js.stripSpace s) as [r|] eqn:Hr; [|done].
    pose proof (trimStart_length r) as Hlen.
    rewrite trimStart_unfold, Hr in Hfixed. rewrite Hfixed in Hlen.
    apply stripSpace_length in Hr. lia. }
  destruct (trimEnd_split s) as (blank & Hs & _).
  rewrite trimStart_unfold.
  destruct (Js.stripSpace (Js.trimEnd s)) as [r|] eqn:Hr; [|done].
  apply (stripSpace_app _ _ blank) in Hr. rewrite <- Hs in Hr. congruence.
Qed.

Lemma trim_idem s : Js.trim (Js.trim s) = Js.trim s.
Proof.
  unfold Js.trim.
  rewrite (trimEnd_keeps_start (Js.trimStart s)) by apply trimStart_idem.
  apply trimEnd_idem.
Qed.

End Trim.

Section Executor.
Import Commands.
Context {W : Type} (host : ExecHost W) (this_timeout : N).
Implicit Types (w : W) (execution : CommandExecution).

(** X19.  [execute] starts one process and always answers.  Its answer
    reports success exactly when the exit code is 0, carries an error
    message exactly when it failed, and always has both output streams,
    trimmed.  The process gets the timeout of the execution, or the
    executor's when that is missing or zero, and the variables of the
    execution in front of those of the environment. *)
Theorem execute_result_invariants execution w :
  let r := execute host this_timeout execution w in
  let result := r.1.1 in
  r.2 = [callOf host this_timeout execution] ∧
  (success result = true ↔ exitCode result = Some 0%Z) ∧
  (success result = true ↔ error result = None) ∧
  (∃ out err, stdout result = Some out ∧ stderr result = Some err ∧
              Js.trim out = out ∧ Js.trim err = err) ∧
  (opt_timeout (execOptions host this_timeout execution) =
     match timeout execution with
     | Some 0%N | None => this_timeout
     | Some t => t
     end) ∧
  (∀ key value,
     (environment execution ≫= λ env, env !! key) = Some value →
     opt_env (execOptions host this_timeout execution) !! key = Some value).
Proof.
  intros r result. unfold result, r, execute. simpl.
  split; [done|].
  destruct (execAsync host _ _ w).1 as [out err|out err code message]; simpl.
  - repeat split; try done.
    + exists (Js.trim out), (Js.trim err). by rewrite !trim_idem.
    + intros key value Hkey.
      destruct (environment execution) as [env|]; [|done]. simpl in *.
      by apply lookup_union_Some_l.
  - assert (codeOr1 code ≠ 0%Z) as Hcode.
    { unfold codeOr1. destruct code as [[| |]|]; done. }
    repeat split; try done.
    + intros [=]. done.
    + exists (default "" (Js.trim <$> out)), (default "" (Js.trim <$> err)).
      destruct out, err; simpl; by rewrite ?trim_idem.
    + intros key value Hkey.
      destruct (environment execution) as [env|]; [|done]. simpl in *.
      by apply lookup_union_Some_l.
Qed.

Lemma executeSequenceFrom_spec (executions : list CommandExecution)
    (results : list CommandResult) w :
  let r := executeSequenceFrom host this_timeout executions results w in
  ∃ news,
    r.1.1 = results ++ news ∧
    length news ≤ length executions ∧
    r.2 = callOf host this_timeout <$> take (length news) executions ∧
    (∀ i res execution,
       news !! i = Some res → executions !! i = Some execution →
       S i < length news →
       success res = true ∨ continueOnError execution = true) ∧
    (length news < length executions →
     ∃ res execution,
       last news = Some res ∧
       executions !! (length news - 1) = Some execution ∧
       success res = false ∧ continueOnError execution = false) ∧
    (executions ≠ [] → news ≠ []).
Proof.
  revert results w. induction executions as [|execution rest IH];
    intros results w r; unfold r.
  { exists []. simpl. rewrite app_nil_r. repeat split; try done.
    intros ?. simpl. lia. }
  cbn [executeSequenceFrom].
  assert ((execute host this_timeout execution w).2
          = [callOf host this_timeout execution]) as Hcall by done.
  destruct (execute host this_timeout execution w) as [[res0 w0] calls0].
  cbn [fst snd] in Hcall |- *. subst calls0.
  destruct (negb (success res0) && negb (continueOnError execution)) eqn:Hstop.
  - exists [res0]. cbn [fst snd length take fmap list_fmap].
    apply andb_true_iff in Hstop as [Hfail Hno].
    apply negb_true_iff in Hfail, Hno.
    split; [done|]. split; [lia|]. split; [done|].
    split; [|split; [|done]].
    + intros i res e _ _ Hi. lia.
    + intros _. by exists res0, execution.
  - destruct (IH (results ++ [res0]) w0)
      as (news & Hres & Hlen & Hcalls & Hmid & Hlast & _).
    exists (res0 :: news). cbn [fst snd length].
    rewrite Hres, Hcalls, <- app_assoc.
    split; [done|]. split; [lia|]. split; [done|]. split; [|split; [|done]].
    + intros [|i] res e Hres' He Hi; simpl in *.
      * injection Hres' as <-. injection He as <-.
        apply andb_false_iff in Hstop as [Hs|Hc].
        -- left. by apply negb_false_iff in Hs.
        -- right. by apply negb_false_iff in Hc.
      * apply (Hmid i res e); [done|done|lia].
    + intros Hshort.
      destruct Hlast as (res & e & Hl & He & Hfail & Hno); [lia|].
      exists res, e.
      destruct news as [|n0 news]; [done|].
      split; [by rewrite last_cons_cons|].
      split; [|done].
      replace (S (length (n0 :: news)) - 1)
        with (S (length (n0 :: news) - 1)) by (simpl; lia).
      exact He.
Qed.

(** X20.  [executeSequence] runs the executions in order, one process
    each, and stops after the first one that fails unless its
    environment sets [CONTINUE_ON_ERROR] to a non-empty string: the
    results answer a prefix of the executions, every result but the
    last is a success or was told to continue, and when the prefix is
    proper its last result is a failure that was not. *)
Theorem sequence_stops_at_first_failure (executions : list CommandExecution) w :
  let r := executeSequence host this_timeout executions w in
  let results := r.1.1 in
  length results ≤ length executions ∧
  r.2 = callOf host this_timeout <$> take (length results) executions ∧
  (∀ i res execution,
     results !! i = Some res → executions !! i = Some execution →
     S i < length results →
     success res = true ∨ continueOnError execution = true) ∧
  (length results < length executions →
   ∃ res execution,
     last results = Some res ∧
     executions !! (length results - 1) = Some execution ∧
     success res = false ∧ continueOnError execution = false) ∧
  (executions ≠ [] → results ≠ []).
Proof.
  intros r results. unfold results, r, executeSequence.
  destruct (executeSequenceFrom_spec executions [] w)
    as (news & -> & Hlen & Hcalls & Hmid & Hlast & Hsome).
  done.
Qed.



End Executor.

(** ** The further properties on concrete runs *)

Section MoreRuns.
Import Scenario MoreScenarios.

Lemma oracle_outcome_run :
  success (value (runMCPMonitoring devHost "detailed" (start devWorld))) = true.
Proof.
  destruct (oracle_outcome devHost "detailed" (start devWorld)) as (Hiff & _).
  apply Hiff. split; by vm_compute.
Defined.

Lemma inspection_error_cases_run :
  value (inspectProject fileHost "web" "/srv/web" ∅ (start fileWorld)) !! "web"
  = Some (GitError "ENOTDIR: not a directory, chdir '/srv/web'").
Proof.
  destruct (inspection_error_cases fileHost "web" "/srv/web" ∅ (start fileWorld))
    as (Hthrow & _).
  - by vm_compute.
  - by apply Hthrow.
Defined.

(** Output that is nothing but a no-break space counts as no output. *)
Example blank_output_is_no_data :
  value (runMCPMonitoring paneHost "detailed" (start blankWorld))
  = McpErr "No data returned".
Proof. by vm_compute. Qed.

(** The project registered as [__proto__] is inspected and leaves no
    entry: two paths exist, and the report counts one project. *)
Example proto_key_stores_nothing :
  let r := generateMonitoringReport protoHost (start protoWorld) in
  existsSync protoHost "/srv/web" = true ∧
  commandsOf (events (checkGitProgress protoHost (start protoWorld)))
    = gitCommandsIn "/srv/web" ++ gitCommandsIn "/srv/api" ∧
  gitProgress (value r) !! "__proto__" = None ∧
  gitProgress (value r) !! "api"
    = Some (GitInfo "/srv/api" (Some ["4be1a77"; "Bo"; "3 hours ago"; "Add retry"])
              0 "main" (Some "3 hours ago")) ∧
  projectsChecked (summary (value r)) = 1.
Proof. by vm_compute. Qed.

Lemma detection_sound_run :
  value (detectStuckPrompts paneHost (start vanishWorld)) = [].
Proof.
  destruct (detection_sound paneHost (start vanishWorld)) as (_ & _ & Hnone).
  apply Hnone. reflexivity.
Defined.

Lemma stuck_content_is_tail_run :
  content (stuckEntry "dev" "Do you want to proceed?" (Some askScreen)) = askScreen.
Proof.
  destruct (stuck_content_is_tail "dev" "Do you want to proceed?" askScreen)
    as (_ & _ & Hwhole).
  apply Hwhole. vm_compute. lia.
Defined.

Lemma recovery_keys_in_order_run :
  attempts (events (tryFixes paneHost devStuck fixes (start stillWorld))) = 5.
Proof.
  destruct (recovery_keys_in_order paneHost devStuck (start stillWorld))
    as (_ & _ & Hall & _).
  apply Hall. by vm_compute.
Defined.

Lemma injections_only_when_detected_run :
  attempts (events (generateMonitoringReport fileHost (start fileWorld))) = 0.
Proof.
  destruct (injections_only_when_detected fileHost (start fileWorld))
    as (Hnone & _).
  apply Hnone. by vm_compute.
Defined.

Lemma alert_lists_sessions_run :
  Js.includes (alertMessage [devStuck]) "- **dev**: Do you want to proceed?" = true.
Proof.
  destruct (alert_lists_sessions devHost [devStuck] devStuck) as (Hline & _).
  - by left.
  - exact Hline.
Defined.


Lemma report_saved_once_and_consistent_run :
  stuckPrompts (summary (value (generateMonitoringReport fileHost (start fileWorld))))
  = 0.
Proof.
  destruct (report_saved_once_and_consistent fileHost (start fileWorld))
    as (_ & _ & _ & _ & Hexcellent).
  apply Hexcellent. by vm_compute.
Defined.

Lemma subject_ellipsis_run :
  Email.subject (fiftyChars +:+ Js.nl +:+ "See the log.")
  = "Claude Code: " +:+ fiftyChars +:+ "...".
Proof.
  destruct (subject_ellipsis (fiftyChars +:+ Js.nl +:+ "See the log."))
    as (_ & _ & Hexact).
  apply Hexact. reflexivity.
Defined.

(** Thirty accented letters are sixty bytes and thirty code units: the
    line is shown whole. *)
Example subject_of_accented_line :
  String.length (times 30 eAcute) = 60 ∧
  Js.units (times 30 eAcute) = 30 ∧
  Email.subject (times 30 eAcute +:+ Js.nl +:+ "Merci.")
  = "Claude Code: " +:+ times 30 eAcute.
Proof. by vm_compute. Qed.

(** Twenty-six faces are fifty-two code units: twenty-five are shown,
    and the subject has sixty-six code units in 116 bytes.  After one
    letter the cut falls inside the twenty-fifth face, of which the
    first half is kept. *)
Example subject_of_emoji_line :
  Email.subject (times 26 grin) = "Claude Code: " +:+ times 25 grin +:+ "..." ∧
  Js.units (Email.subject (times 26 grin)) = 66 ∧
  String.length (Email.subject (times 26 grin)) = 116 ∧
  Email.subject ("a" +:+ times 26 grin)
  = "Claude Code: a" +:+ times 24 grin +:+ grinHigh +:+ "...".
Proof. by vm_compute. Qed.

Lemma mail_exit_status_run :
  Email.main (Some "me@example.org") (Some "app-password")
    (λ _ _, inl "<id-1@example.org>") ["Task"; "completed"] = 0.
Proof.
  destruct (mail_exit_status (Some "me@example.org") (Some "app-password")
              (λ _ _, inl "<id-1@example.org>") ["Task"; "completed"])
    as (Hiff & _).
  apply Hiff. repeat split; try done. by eexists.
Defined.

Lemma sanitize_removes_shell_characters_run :
  countChar ";" "path rm -rf /" = 0.
Proof.
  destruct (sanitize_removes_shell_characters ["file.txt"; "path; rm -rf /"])
    as (_ & Hclean & _).
  apply Hclean; [|reflexivity].
  right. left.
Defined.

Lemma validate_rejects_dangerous_phrase_run :
  Commands.validateCommand "git" (Some ["log"; "--format=%H"]) = false.
Proof.
  destruct (validate_rejects_dangerous_phrase "git" ["log"; "--format=%H"])
    as (Hwith & _).
  apply (Hwith "format").
  - do 2 right. left.
  - right. exists "--format=%H". split; [right; left|reflexivity].
Defined.

Lemma execute_result_invariants_run :
  Commands.opt_env (Commands.execOptions okHost 30000 listHome) !! "PATH"
  = Some "/opt/bin".
Proof.
  destruct (execute_result_invariants okHost 30000 listHome 0%Z)
    as (_ & _ & _ & _ & _ & Henv).
  apply Henv. by vm_compute.
Defined.

Lemma sequence_stops_at_first_failure_run :
  ∃ res execution,
    last (Commands.executeSequence noRemoteHost 30000
            (Commands.gitHealthCommands noRemoteHost None) 0%Z).1.1 = Some res ∧
    Commands.gitHealthCommands noRemoteHost None !! 1 = Some execution ∧
    Commands.success res = false ∧ Commands.continueOnError execution = false.
Proof.
  destruct (sequence_stops_at_first_failure noRemoteHost 30000
              (Commands.gitHealthCommands noRemoteHost None) 0%Z)
    as (_ & _ & _ & Hlast & _).
  apply Hlast. vm_compute. lia.
Defined.


End MoreRuns.
